(** * Verity-Nodes war room: the client-side pipeline orchestrator

    A shallow embedding of [frontend/src/app/page.tsx] (the [WarRoom]
    component: [handleFilesAccepted], [animateProgress], [pushLog],
    [formatEUR]), of [lib/supabase] ([logAuditEvent],
    [uploadAuditDocument]) and of [ComplianceGauge.getColor].

    JavaScript numbers are modelled by rationals, the value of a finite
    double; the quotients that [formatEUR] prints are rounded as the
    double division rounds them.  Run-time values that come back from the
    network are untyped ([res.json()] is [any]), so they are modelled by a
    type of JavaScript values, with the coercions of the language written
    out where the code relies on them, the ones that throw included. *)

From Stdlib Require Import List String Ascii ZArith QArith Qround Qabs Qpower Bool Lia Lqa.
Import ListNotations.

Set Warnings "-register-all".

Local Open Scope string_scope.
Local Open Scope Z_scope.

(* ================================================================== *)
(** * JavaScript values                                                 *)
(* ================================================================== *)

Inductive value : Type :=
| VUndef
| VNull
| VBool (b : bool)
| VNum (q : Q)
| VStr (s : string)
| VArr (l : list value)
| VObj (m : list (string * value)).

(** The parts of the language run time that the code calls but that are
    not written out here: [String(v)] of a number that is not a whole
    number below [10^21] ([render], used on numbers only), [Number(v)] of
    a string ([numeric], [None] is [NaN]), and [JSON.stringify] of a value
    other than [undefined].  None of the three throws. *)
Class JsRuntime : Type := {
  render : value -> string;
  numeric : value -> option Q;
  stringify : value -> string
}.

Module Js.

(** Decimal digits of a non-negative integer. *)
Definition digit (d : Z) : string :=
  String (ascii_of_nat (48 + Z.to_nat d)) EmptyString.

Fixpoint digits_fuel (fuel : nat) (n : Z) : string :=
  match fuel with
  | O => EmptyString
  | S fuel' =>
      if n <? 10 then digit n
      else digits_fuel fuel' (n / 10) ++ digit (n mod 10)
  end.

Definition digits (n : Z) : string :=
  digits_fuel (S (Z.to_nat (Z.log2 n))) n.

(** [String(n)] for an integer [n]. *)
Definition int_to_string (n : Z) : string :=
  if n <? 0 then "-" ++ digits (- n) else digits n.

Definition Qlt_bool (a b : Q) : bool := negb (Qle_bool b a).

Definition is_integer (q : Q) : bool :=
  Qeq_bool q (inject_Z (Qfloor q)).

(** [ToBoolean]. *)
Definition truthy (v : value) : bool :=
  match v with
  | VUndef | VNull => false
  | VBool b => b
  | VNum q => negb (Qeq_bool q 0)
  | VStr s => negb (String.eqb s EmptyString)
  | VArr _ | VObj _ => true
  end.

(** [a || b]. *)
Definition or_else (a b : value) : value := if truthy a then a else b.

Fixpoint lookup (k : string) (m : list (string * value)) : value :=
  match m with
  | [] => VUndef
  | (k', v) :: m' => if String.eqb k k' then v else lookup k m'
  end.

(** [o[k] = v] on a property list: replaces in place, else appends. *)
Fixpoint obj_set (k : string) (v : value) (m : list (string * value))
  : list (string * value) :=
  match m with
  | [] => [(k, v)]
  | (k', v') :: m' =>
      if String.eqb k k' then (k, v) :: m' else (k', v') :: obj_set k v m'
  end.

Definition of_nat (n : nat) : value := VNum (inject_Z (Z.of_nat n)).

(** [v.k]: [None] is the [TypeError] of reading a property of
    [undefined] or [null].  Only data properties and [length] are read
    by the code. *)
Definition get (v : value) (k : string) : option value :=
  match v with
  | VUndef | VNull => None
  | VObj m => Some (lookup k m)
  | VArr l => Some (if String.eqb k "length" then of_nat (List.length l) else VUndef)
  | VStr s => Some (if String.eqb k "length" then of_nat (String.length s) else VUndef)
  | VBool _ | VNum _ => Some VUndef
  end.

(** [v?.k]. *)
Definition opt_get (v : value) (k : string) : value :=
  match get v k with
  | Some x => x
  | None => VUndef
  end.

(** [v === "s"] and [v === 0]. *)
Definition is_str (v : value) (s : string) : bool :=
  match v with
  | VStr t => String.eqb t s
  | _ => false
  end.

Definition is_zero (v : value) : bool :=
  match v with
  | VNum q => Qeq_bool q 0
  | _ => false
  end.

(** Whether an object has an own property [k]. *)
Fixpoint has_key (k : string) (m : list (string * value)) : bool :=
  match m with
  | [] => false
  | (k', _) :: m' => String.eqb k k' || has_key k m'
  end.

(** ** Doubles

    [pow2 e] is [2^e]; [binade x] is the [e] with [2^e <= x < 2^(e+1)]
    for a positive [x]. *)
Definition pow2 (e : Z) : Q := (2 ^ e)%Q.

Definition binade (x : Q) : Z :=
  let e := Z.log2 (Qnum x) - Z.log2 (Zpos (Qden x)) in
  if Qle_bool (pow2 e) x then e else e - 1.

(** The integer nearest to a non-negative [y], the even one on a tie. *)
Definition round_even (y : Q) : Z :=
  let f := Qfloor y in
  match (y - inject_Z f ?= 1 # 2)%Q with
  | Lt => f
  | Eq => if Z.even f then f else f + 1
  | Gt => f + 1
  end.

(** The double nearest to [x], the one with an even significand on a
    tie: 53 bits of significand, and the spacing [2^-1074] of the
    subnormal numbers below [2^-1022].  (A result of [2^1024] or more
    would be an infinity; no quotient of [formatEUR] is that large.) *)
Definition round_double (x : Q) : Q :=
  if Qeq_bool x 0 then 0%Q
  else
    let a := Qabs x in
    let e := Z.max (binade a - 52) (- 1074) in
    let m := (inject_Z (round_even (a / pow2 e)) * pow2 e)%Q in
    if Qlt_bool x 0 then (- m)%Q else m.

(** [a / b] on doubles. *)
Definition fdiv (a b : Q) : Q := round_double (a / b).

Section WithRuntime.
Context `{JsRuntime}.

(** [String(n)] of a number. *)
Definition number_to_string (q : Q) : string :=
  if is_integer q && Qlt_bool (Qabs q) (inject_Z (10 ^ 21))
  then int_to_string (Qfloor q)
  else render (VNum q).

(** [String(v)], as in a template literal: [None] is the [TypeError] of
    a value that has no primitive value.  An array joins the strings of
    its elements ([undefined] and [null] give the empty string); an
    object that came from JSON prints as [[object Object]], unless it has
    an own property [toString]: that property is not a function, and
    [valueOf] then gives back the object itself. *)
Fixpoint to_string (v : value) : option string :=
  match v with
  | VUndef => Some "undefined"
  | VNull => Some "null"
  | VBool true => Some "true"
  | VBool false => Some "false"
  | VStr s => Some s
  | VNum q => Some (number_to_string q)
  | VArr l =>
      (fix join (l : list value) : option string :=
         match l with
         | [] => Some EmptyString
         | x :: l' =>
             match (match x with
                    | VUndef | VNull => Some EmptyString
                    | _ => to_string x
                    end), l' with
             | None, _ => None
             | Some a, [] => Some a
             | Some a, _ :: _ =>
                 match join l' with
                 | None => None
                 | Some b => Some (a ++ "," ++ b)
                 end
             end
         end) l
  | VObj m => if has_key "toString" m then None else Some "[object Object]"
  end.

(** [v > 0]: [v] is made a primitive value, a number first for an array
    or an object, which throws as [String(v)] does, then a number. *)
Definition gt_zero (v : value) : option bool :=
  match v with
  | VUndef | VNull => Some false
  | VBool b => Some b
  | VNum q => Some (Qlt_bool 0 q)
  | VStr _ =>
      Some match numeric v with
           | Some q => Qlt_bool 0 q
           | None => false
           end
  | VArr _ | VObj _ =>
      match to_string v with
      | None => None
      | Some s =>
          Some match numeric (VStr s) with
               | Some q => Qlt_bool 0 q
               | None => false
               end
      end
  end.

Fixpoint zeros (n : nat) : string :=
  match n with
  | O => EmptyString
  | S n' => "0" ++ zeros n'
  end.

(** [x.toFixed(f)] for the double [x]: the integer [n] for which
    [n / 10^f] is nearest to [x], the larger one on a tie, printed with
    [f] digits after the point; a leading [-] for a negative [x], and
    [String(x)] from [10^21] on. *)
Definition toFixed (x : Q) (f : nat) : string :=
  let s := if Qlt_bool x 0 then "-" else EmptyString in
  let x := Qabs x in
  if Qle_bool (inject_Z (10 ^ 21)) x then s ++ number_to_string x
  else
    let n := Qfloor (x * inject_Z (10 ^ Z.of_nat f) + (1 # 2)) in
    let m := digits n in
    match f with
    | O => s ++ m
    | S _ =>
        let m := if (String.length m <=? f)%nat
                 then zeros (S f - String.length m) ++ m else m in
        let k := String.length m in
        s ++ substring 0 (k - f) m ++ "." ++ substring (k - f) f m
    end.
End WithRuntime.

End Js.

(* ================================================================== *)
(** * ComplianceGauge.getColor                                          *)
(* ================================================================== *)

Record GaugeColor : Type := { stroke : string; glow : string }.

(** The four risk tiers, by the colours the gauge draws them in. *)
Definition tier_critical : GaugeColor :=
  {| stroke := "#FF0040"; glow := "rgba(255,0,64,0.3)" |}.
Definition tier_warning : GaugeColor :=
  {| stroke := "#FFB800"; glow := "rgba(255,184,0,0.3)" |}.
Definition tier_informational : GaugeColor :=
  {| stroke := "#00E5FF"; glow := "rgba(0,229,255,0.3)" |}.
Definition tier_compliant : GaugeColor :=
  {| stroke := "#00FF41"; glow := "rgba(0,255,65,0.3)" |}.

Definition getColor (animatedRisk : Q) : GaugeColor :=
  if Qle_bool (8 # 10) animatedRisk then tier_critical
  else if Qle_bool (5 # 10) animatedRisk then tier_warning
  else if Qle_bool (1 # 100) animatedRisk then tier_informational
  else tier_compliant.

(* ================================================================== *)
(** * page.tsx: formatEUR                                               *)
(* ================================================================== *)

Section FormatEUR.
Context `{JsRuntime}.

Definition formatEUR (n : Q) : string :=
  if Qle_bool (inject_Z 1000000) n
  then "€" ++ Js.toFixed (Js.fdiv n (inject_Z 1000000)) 1 ++ "M"
  else if Qle_bool (inject_Z 1000) n
  then "€" ++ Js.toFixed (Js.fdiv n (inject_Z 1000)) 0 ++ "K"
  else "€" ++ Js.number_to_string n.
End FormatEUR.

(* ================================================================== *)
(** * page.tsx: type definitions and component state                   *)
(* ================================================================== *)

Record UploadedFile : Type := {
  name : string;
  size : Z;
  type : string;
  base64 : string
}.

Inductive StageStatus : Type := pending | active | complete | error.

Record ProcessingStage : Type := {
  label : string;
  icon : string;
  status : StageStatus
}.

Inductive AgentState : Type :=
  ACTIVE | IDLE | ERROR | PROCESSING | SUCCESS | ESCALATED.

Definition DEFAULT_STAGES : list ProcessingStage :=
  [ {| label := "Ingest"; icon := "📤"; status := pending |};
    {| label := "OCR"; icon := "👁️"; status := pending |};
    {| label := "Audit"; icon := "🔍"; status := pending |};
    {| label := "Shield"; icon := "⚖️"; status := pending |};
    {| label := "Action"; icon := "🔧"; status := pending |} ].

(** A topology node of [activeNodes]. *)
Record Node : Type := {
  node_id : string;
  node_label : string;
  node_type : string;
  node_status : string;
  location : string;
  subLabel : option string;
  emissions : option string
}.

(** An [AgentLogEntry] as it exists at run time: a property list.  The
    entries replayed from the back end are spread from untyped values. *)
Definition Entry : Type := list (string * value).

(** The closure of the [setInterval] callback of [animateProgress]. *)
Record Interval : Type := {
  current : Q;
  step : Q;
  target : Q
}.

(** The state of the [WarRoom] component ([useState] cells and the
    [progressRef] timer handle), the fault flag of an updater that throws
    while React renders, and the diagnostic console. *)
Record State : Type := {
  auditResult : value;
  agentLog : list Entry;
  currentAuditId : string;
  riskScore : Q;
  findings : list value;
  violations : list value;
  exposure : value;
  isExtracting : bool;
  extractionProgress : Q;
  currentStage : string;
  pipelineStages : list ProcessingStage;
  progressRef : option Interval;
  auditorState : AgentState;
  shieldState : AgentState;
  actionState : AgentState;
  auditorAction : string;
  shieldAction : string;
  actionAction : string;
  auditorItems : value;
  shieldItems : value;
  actionItems : value;
  selectedAgentFilter : option string;
  activeNodes : list Node;
  renderFault : bool;
  console : list string
}.

Definition setAuditResult (x : value) (s : State) : State :=
  {| auditResult := x; agentLog := agentLog s; currentAuditId :=
  currentAuditId s; riskScore := riskScore s; findings := findings s;
  violations := violations s; exposure := exposure s; isExtracting :=
  isExtracting s; extractionProgress := extractionProgress s; currentStage
  := currentStage s; pipelineStages := pipelineStages s; progressRef :=
  progressRef s; auditorState := auditorState s; shieldState := shieldState
  s; actionState := actionState s; auditorAction := auditorAction s;
  shieldAction := shieldAction s; actionAction := actionAction s;
  auditorItems := auditorItems s; shieldItems := shieldItems s; actionItems
  := actionItems s; selectedAgentFilter := selectedAgentFilter s;
  activeNodes := activeNodes s; renderFault := renderFault s; console :=
  console s |}.

Definition setAgentLog (x : list Entry) (s : State) : State :=
  {| auditResult := auditResult s; agentLog := x; currentAuditId :=
  currentAuditId s; riskScore := riskScore s; findings := findings s;
  violations := violations s; exposure := exposure s; isExtracting :=
  isExtracting s; extractionProgress := extractionProgress s; currentStage
  := currentStage s; pipelineStages := pipelineStages s; progressRef :=
  progressRef s; auditorState := auditorState s; shieldState := shieldState
  s; actionState := actionState s; auditorAction := auditorAction s;
  shieldAction := shieldAction s; actionAction := actionAction s;
  auditorItems := auditorItems s; shieldItems := shieldItems s; actionItems
  := actionItems s; selectedAgentFilter := selectedAgentFilter s;
  activeNodes := activeNodes s; renderFault := renderFault s; console :=
  console s |}.

Definition setCurrentAuditId (x : string) (s : State) : State :=
  {| auditResult := auditResult s; agentLog := agentLog s; currentAuditId :=
  x; riskScore := riskScore s; findings := findings s; violations :=
  violations s; exposure := exposure s; isExtracting := isExtracting s;
  extractionProgress := extractionProgress s; currentStage := currentStage
  s; pipelineStages := pipelineStages s; progressRef := progressRef s;
  auditorState := auditorState s; shieldState := shieldState s; actionState
  := actionState s; auditorAction := auditorAction s; shieldAction :=
  shieldAction s; actionAction := actionAction s; auditorItems :=
  auditorItems s; shieldItems := shieldItems s; actionItems := actionItems
  s; selectedAgentFilter := selectedAgentFilter s; activeNodes :=
  activeNodes s; renderFault := renderFault s; console := console s |}.

Definition setRiskScore (x : Q) (s : State) : State :=
  {| auditResult := auditResult s; agentLog := agentLog s; currentAuditId :=
  currentAuditId s; riskScore := x; findings := findings s; violations :=
  violations s; exposure := exposure s; isExtracting := isExtracting s;
  extractionProgress := extractionProgress s; currentStage := currentStage
  s; pipelineStages := pipelineStages s; progressRef := progressRef s;
  auditorState := auditorState s; shieldState := shieldState s; actionState
  := actionState s; auditorAction := auditorAction s; shieldAction :=
  shieldAction s; actionAction := actionAction s; auditorItems :=
  auditorItems s; shieldItems := shieldItems s; actionItems := actionItems
  s; selectedAgentFilter := selectedAgentFilter s; activeNodes :=
  activeNodes s; renderFault := renderFault s; console := console s |}.

Definition setFindings (x : list value) (s : State) : State :=
  {| auditResult := auditResult s; agentLog := agentLog s; currentAuditId :=
  currentAuditId s; riskScore := riskScore s; findings := x; violations :=
  violations s; exposure := exposure s; isExtracting := isExtracting s;
  extractionProgress := extractionProgress s; currentStage := currentStage
  s; pipelineStages := pipelineStages s; progressRef := progressRef s;
  auditorState := auditorState s; shieldState := shieldState s; actionState
  := actionState s; auditorAction := auditorAction s; shieldAction :=
  shieldAction s; actionAction := actionAction s; auditorItems :=
  auditorItems s; shieldItems := shieldItems s; actionItems := actionItems
  s; selectedAgentFilter := selectedAgentFilter s; activeNodes :=
  activeNodes s; renderFault := renderFault s; console := console s |}.

Definition setViolations (x : list value) (s : State) : State :=
  {| auditResult := auditResult s; agentLog := agentLog s; currentAuditId :=
  currentAuditId s; riskScore := riskScore s; findings := findings s;
  violations := x; exposure := exposure s; isExtracting := isExtracting s;
  extractionProgress := extractionProgress s; currentStage := currentStage
  s; pipelineStages := pipelineStages s; progressRef := progressRef s;
  auditorState := auditorState s; shieldState := shieldState s; actionState
  := actionState s; auditorAction := auditorAction s; shieldAction :=
  shieldAction s; actionAction := actionAction s; auditorItems :=
  auditorItems s; shieldItems := shieldItems s; actionItems := actionItems
  s; selectedAgentFilter := selectedAgentFilter s; activeNodes :=
  activeNodes s; renderFault := renderFault s; console := console s |}.

Definition setExposure (x : value) (s : State) : State :=
  {| auditResult := auditResult s; agentLog := agentLog s; currentAuditId :=
  currentAuditId s; riskScore := riskScore s; findings := findings s;
  violations := violations s; exposure := x; isExtracting := isExtracting s;
  extractionProgress := extractionProgress s; currentStage := currentStage
  s; pipelineStages := pipelineStages s; progressRef := progressRef s;
  auditorState := auditorState s; shieldState := shieldState s; actionState
  := actionState s; auditorAction := auditorAction s; shieldAction :=
  shieldAction s; actionAction := actionAction s; auditorItems :=
  auditorItems s; shieldItems := shieldItems s; actionItems := actionItems
  s; selectedAgentFilter := selectedAgentFilter s; activeNodes :=
  activeNodes s; renderFault := renderFault s; console := console s |}.

Definition setIsExtracting (x : bool) (s : State) : State :=
  {| auditResult := auditResult s; agentLog := agentLog s; currentAuditId :=
  currentAuditId s; riskScore := riskScore s; findings := findings s;
  violations := violations s; exposure := exposure s; isExtracting := x;
  extractionProgress := extractionProgress s; currentStage := currentStage
  s; pipelineStages := pipelineStages s; progressRef := progressRef s;
  auditorState := auditorState s; shieldState := shieldState s; actionState
  := actionState s; auditorAction := auditorAction s; shieldAction :=
  shieldAction s; actionAction := actionAction s; auditorItems :=
  auditorItems s; shieldItems := shieldItems s; actionItems := actionItems
  s; selectedAgentFilter := selectedAgentFilter s; activeNodes :=
  activeNodes s; renderFault := renderFault s; console := console s |}.

Definition setExtractionProgress (x : Q) (s : State) : State :=
  {| auditResult := auditResult s; agentLog := agentLog s; currentAuditId :=
  currentAuditId s; riskScore := riskScore s; findings := findings s;
  violations := violations s; exposure := exposure s; isExtracting :=
  isExtracting s; extractionProgress := x; currentStage := currentStage s;
  pipelineStages := pipelineStages s; progressRef := progressRef s;
  auditorState := auditorState s; shieldState := shieldState s; actionState
  := actionState s; auditorAction := auditorAction s; shieldAction :=
  shieldAction s; actionAction := actionAction s; auditorItems :=
  auditorItems s; shieldItems := shieldItems s; actionItems := actionItems
  s; selectedAgentFilter := selectedAgentFilter s; activeNodes :=
  activeNodes s; renderFault := renderFault s; console := console s |}.

Definition setCurrentStage (x : string) (s : State) : State :=
  {| auditResult := auditResult s; agentLog := agentLog s; currentAuditId :=
  currentAuditId s; riskScore := riskScore s; findings := findings s;
  violations := violations s; exposure := exposure s; isExtracting :=
  isExtracting s; extractionProgress := extractionProgress s; currentStage
  := x; pipelineStages := pipelineStages s; progressRef := progressRef s;
  auditorState := auditorState s; shieldState := shieldState s; actionState
  := actionState s; auditorAction := auditorAction s; shieldAction :=
  shieldAction s; actionAction := actionAction s; auditorItems :=
  auditorItems s; shieldItems := shieldItems s; actionItems := actionItems
  s; selectedAgentFilter := selectedAgentFilter s; activeNodes :=
  activeNodes s; renderFault := renderFault s; console := console s |}.

Definition setPipelineStages (x : list ProcessingStage) (s : State) : State :=
  {| auditResult := auditResult s; agentLog := agentLog s; currentAuditId :=
  currentAuditId s; riskScore := riskScore s; findings := findings s;
  violations := violations s; exposure := exposure s; isExtracting :=
  isExtracting s; extractionProgress := extractionProgress s; currentStage
  := currentStage s; pipelineStages := x; progressRef := progressRef s;
  auditorState := auditorState s; shieldState := shieldState s; actionState
  := actionState s; auditorAction := auditorAction s; shieldAction :=
  shieldAction s; actionAction := actionAction s; auditorItems :=
  auditorItems s; shieldItems := shieldItems s; actionItems := actionItems
  s; selectedAgentFilter := selectedAgentFilter s; activeNodes :=
  activeNodes s; renderFault := renderFault s; console := console s |}.

Definition setProgressRef (x : option Interval) (s : State) : State :=
  {| auditResult := auditResult s; agentLog := agentLog s; currentAuditId :=
  currentAuditId s; riskScore := riskScore s; findings := findings s;
  violations := violations s; exposure := exposure s; isExtracting :=
  isExtracting s; extractionProgress := extractionProgress s; currentStage
  := currentStage s; pipelineStages := pipelineStages s; progressRef := x;
  auditorState := auditorState s; shieldState := shieldState s; actionState
  := actionState s; auditorAction := auditorAction s; shieldAction :=
  shieldAction s; actionAction := actionAction s; auditorItems :=
  auditorItems s; shieldItems := shieldItems s; actionItems := actionItems
  s; selectedAgentFilter := selectedAgentFilter s; activeNodes :=
  activeNodes s; renderFault := renderFault s; console := console s |}.

Definition setAuditorState (x : AgentState) (s : State) : State :=
  {| auditResult := auditResult s; agentLog := agentLog s; currentAuditId :=
  currentAuditId s; riskScore := riskScore s; findings := findings s;
  violations := violations s; exposure := exposure s; isExtracting :=
  isExtracting s; extractionProgress := extractionProgress s; currentStage
  := currentStage s; pipelineStages := pipelineStages s; progressRef :=
  progressRef s; auditorState := x; shieldState := shieldState s;
  actionState := actionState s; auditorAction := auditorAction s;
  shieldAction := shieldAction s; actionAction := actionAction s;
  auditorItems := auditorItems s; shieldItems := shieldItems s; actionItems
  := actionItems s; selectedAgentFilter := selectedAgentFilter s;
  activeNodes := activeNodes s; renderFault := renderFault s; console :=
  console s |}.

Definition setShieldState (x : AgentState) (s : State) : State :=
  {| auditResult := auditResult s; agentLog := agentLog s; currentAuditId :=
  currentAuditId s; riskScore := riskScore s; findings := findings s;
  violations := violations s; exposure := exposure s; isExtracting :=
  isExtracting s; extractionProgress := extractionProgress s; currentStage
  := currentStage s; pipelineStages := pipelineStages s; progressRef :=
  progressRef s; auditorState := auditorState s; shieldState := x;
  actionState := actionState s; auditorAction := auditorAction s;
  shieldAction := shieldAction s; actionAction := actionAction s;
  auditorItems := auditorItems s; shieldItems := shieldItems s; actionItems
  := actionItems s; selectedAgentFilter := selectedAgentFilter s;
  activeNodes := activeNodes s; renderFault := renderFault s; console :=
  console s |}.

Definition setActionState (x : AgentState) (s : State) : State :=
  {| auditResult := auditResult s; agentLog := agentLog s; currentAuditId :=
  currentAuditId s; riskScore := riskScore s; findings := findings s;
  violations := violations s; exposure := exposure s; isExtracting :=
  isExtracting s; extractionProgress := extractionProgress s; currentStage
  := currentStage s; pipelineStages := pipelineStages s; progressRef :=
  progressRef s; auditorState := auditorState s; shieldState := shieldState
  s; actionState := x; auditorAction := auditorAction s; shieldAction :=
  shieldAction s; actionAction := actionAction s; auditorItems :=
  auditorItems s; shieldItems := shieldItems s; actionItems := actionItems
  s; selectedAgentFilter := selectedAgentFilter s; activeNodes :=
  activeNodes s; renderFault := renderFault s; console := console s |}.

Definition setAuditorAction (x : string) (s : State) : State :=
  {| auditResult := auditResult s; agentLog := agentLog s; currentAuditId :=
  currentAuditId s; riskScore := riskScore s; findings := findings s;
  violations := violations s; exposure := exposure s; isExtracting :=
  isExtracting s; extractionProgress := extractionProgress s; currentStage
  := currentStage s; pipelineStages := pipelineStages s; progressRef :=
  progressRef s; auditorState := auditorState s; shieldState := shieldState
  s; actionState := actionState s; auditorAction := x; shieldAction :=
  shieldAction s; actionAction := actionAction s; auditorItems :=
  auditorItems s; shieldItems := shieldItems s; actionItems := actionItems
  s; selectedAgentFilter := selectedAgentFilter s; activeNodes :=
  activeNodes s; renderFault := renderFault s; console := console s |}.

Definition setShieldAction (x : string) (s : State) : State :=
  {| auditResult := auditResult s; agentLog := agentLog s; currentAuditId :=
  currentAuditId s; riskScore := riskScore s; findings := findings s;
  violations := violations s; exposure := exposure s; isExtracting :=
  isExtracting s; extractionProgress := extractionProgress s; currentStage
  := currentStage s; pipelineStages := pipelineStages s; progressRef :=
  progressRef s; auditorState := auditorState s; shieldState := shieldState
  s; actionState := actionState s; auditorAction := auditorAction s;
  shieldAction := x; actionAction := actionAction s; auditorItems :=
  auditorItems s; shieldItems := shieldItems s; actionItems := actionItems
  s; selectedAgentFilter := selectedAgentFilter s; activeNodes :=
  activeNodes s; renderFault := renderFault s; console := console s |}.

Definition setActionAction (x : string) (s : State) : State :=
  {| auditResult := auditResult s; agentLog := agentLog s; currentAuditId :=
  currentAuditId s; riskScore := riskScore s; findings := findings s;
  violations := violations s; exposure := exposure s; isExtracting :=
  isExtracting s; extractionProgress := extractionProgress s; currentStage
  := currentStage s; pipelineStages := pipelineStages s; progressRef :=
  progressRef s; auditorState := auditorState s; shieldState := shieldState
  s; actionState := actionState s; auditorAction := auditorAction s;
  shieldAction := shieldAction s; actionAction := x; auditorItems :=
  auditorItems s; shieldItems := shieldItems s; actionItems := actionItems
  s; selectedAgentFilter := selectedAgentFilter s; activeNodes :=
  activeNodes s; renderFault := renderFault s; console := console s |}.

Definition setAuditorItems (x : value) (s : State) : State :=
  {| auditResult := auditResult s; agentLog := agentLog s; currentAuditId :=
  currentAuditId s; riskScore := riskScore s; findings := findings s;
  violations := violations s; exposure := exposure s; isExtracting :=
  isExtracting s; extractionProgress := extractionProgress s; currentStage
  := currentStage s; pipelineStages := pipelineStages s; progressRef :=
  progressRef s; auditorState := auditorState s; shieldState := shieldState
  s; actionState := actionState s; auditorAction := auditorAction s;
  shieldAction := shieldAction s; actionAction := actionAction s;
  auditorItems := x; shieldItems := shieldItems s; actionItems :=
  actionItems s; selectedAgentFilter := selectedAgentFilter s; activeNodes
  := activeNodes s; renderFault := renderFault s; console := console s |}.

Definition setShieldItems (x : value) (s : State) : State :=
  {| auditResult := auditResult s; agentLog := agentLog s; currentAuditId :=
  currentAuditId s; riskScore := riskScore s; findings := findings s;
  violations := violations s; exposure := exposure s; isExtracting :=
  isExtracting s; extractionProgress := extractionProgress s; currentStage
  := currentStage s; pipelineStages := pipelineStages s; progressRef :=
  progressRef s; auditorState := auditorState s; shieldState := shieldState
  s; actionState := actionState s; auditorAction := auditorAction s;
  shieldAction := shieldAction s; actionAction := actionAction s;
  auditorItems := auditorItems s; shieldItems := x; actionItems :=
  actionItems s; selectedAgentFilter := selectedAgentFilter s; activeNodes
  := activeNodes s; renderFault := renderFault s; console := console s |}.

Definition setActionItems (x : value) (s : State) : State :=
  {| auditResult := auditResult s; agentLog := agentLog s; currentAuditId :=
  currentAuditId s; riskScore := riskScore s; findings := findings s;
  violations := violations s; exposure := exposure s; isExtracting :=
  isExtracting s; extractionProgress := extractionProgress s; currentStage
  := currentStage s; pipelineStages := pipelineStages s; progressRef :=
  progressRef s; auditorState := auditorState s; shieldState := shieldState
  s; actionState := actionState s; auditorAction := auditorAction s;
  shieldAction := shieldAction s; actionAction := actionAction s;
  auditorItems := auditorItems s; shieldItems := shieldItems s; actionItems
  := x; selectedAgentFilter := selectedAgentFilter s; activeNodes :=
  activeNodes s; renderFault := renderFault s; console := console s |}.

Definition setSelectedAgentFilter (x : option string) (s : State) : State :=
  {| auditResult := auditResult s; agentLog := agentLog s; currentAuditId :=
  currentAuditId s; riskScore := riskScore s; findings := findings s;
  violations := violations s; exposure := exposure s; isExtracting :=
  isExtracting s; extractionProgress := extractionProgress s; currentStage
  := currentStage s; pipelineStages := pipelineStages s; progressRef :=
  progressRef s; auditorState := auditorState s; shieldState := shieldState
  s; actionState := actionState s; auditorAction := auditorAction s;
  shieldAction := shieldAction s; actionAction := actionAction s;
  auditorItems := auditorItems s; shieldItems := shieldItems s; actionItems
  := actionItems s; selectedAgentFilter := x; activeNodes := activeNodes s;
  renderFault := renderFault s; console := console s |}.

Definition setActiveNodes (x : list Node) (s : State) : State :=
  {| auditResult := auditResult s; agentLog := agentLog s; currentAuditId :=
  currentAuditId s; riskScore := riskScore s; findings := findings s;
  violations := violations s; exposure := exposure s; isExtracting :=
  isExtracting s; extractionProgress := extractionProgress s; currentStage
  := currentStage s; pipelineStages := pipelineStages s; progressRef :=
  progressRef s; auditorState := auditorState s; shieldState := shieldState
  s; actionState := actionState s; auditorAction := auditorAction s;
  shieldAction := shieldAction s; actionAction := actionAction s;
  auditorItems := auditorItems s; shieldItems := shieldItems s; actionItems
  := actionItems s; selectedAgentFilter := selectedAgentFilter s;
  activeNodes := x; renderFault := renderFault s; console := console s |}.

Definition setRenderFault (x : bool) (s : State) : State :=
  {| auditResult := auditResult s; agentLog := agentLog s; currentAuditId :=
  currentAuditId s; riskScore := riskScore s; findings := findings s;
  violations := violations s; exposure := exposure s; isExtracting :=
  isExtracting s; extractionProgress := extractionProgress s; currentStage
  := currentStage s; pipelineStages := pipelineStages s; progressRef :=
  progressRef s; auditorState := auditorState s; shieldState := shieldState
  s; actionState := actionState s; auditorAction := auditorAction s;
  shieldAction := shieldAction s; actionAction := actionAction s;
  auditorItems := auditorItems s; shieldItems := shieldItems s; actionItems
  := actionItems s; selectedAgentFilter := selectedAgentFilter s;
  activeNodes := activeNodes s; renderFault := x; console := console s |}.

Definition setConsole (x : list string) (s : State) : State :=
  {| auditResult := auditResult s; agentLog := agentLog s; currentAuditId :=
  currentAuditId s; riskScore := riskScore s; findings := findings s;
  violations := violations s; exposure := exposure s; isExtracting :=
  isExtracting s; extractionProgress := extractionProgress s; currentStage
  := currentStage s; pipelineStages := pipelineStages s; progressRef :=
  progressRef s; auditorState := auditorState s; shieldState := shieldState
  s; actionState := actionState s; auditorAction := auditorAction s;
  shieldAction := shieldAction s; actionAction := actionAction s;
  auditorItems := auditorItems s; shieldItems := shieldItems s; actionItems
  := actionItems s; selectedAgentFilter := selectedAgentFilter s;
  activeNodes := activeNodes s; renderFault := renderFault s; console := x
  |}.

Definition initial_nodes : list Node :=
  [ {| node_id := "1"; node_label := "GreenTextile GmbH"; node_type := "supplier";
       node_status := "unverified"; location := "Bangladesh";
       subLabel := None; emissions := None |};
    {| node_id := "2"; node_label := "Port Chittagong"; node_type := "port";
       node_status := "unverified"; location := "BDCGP";
       subLabel := None; emissions := None |};
    {| node_id := "3"; node_label := "MSC AURORA"; node_type := "logistics";
       node_status := "verified"; location := "Indian Ocean";
       subLabel := Some "Vessel: 9817078"; emissions := None |};
    {| node_id := "4"; node_label := "Port Hamburg"; node_type := "port";
       node_status := "verified"; location := "DEHAM";
       subLabel := None; emissions := None |};
    {| node_id := "5"; node_label := "EU Distribution"; node_type := "warehouse";
       node_status := "unverified"; location := "Germany";
       subLabel := None; emissions := None |};
    {| node_id := "6"; node_label := "Retail (EU Market)"; node_type := "destination";
       node_status := "verified"; location := "EU";
       subLabel := None; emissions := None |} ].

(** The state of the first render. *)
Definition initial_state : State :=
  {| auditResult := VNull; agentLog := []; currentAuditId := EmptyString;
     riskScore := 0%Q; findings := []; violations := []; exposure := VNum 0%Q;
     isExtracting := false; extractionProgress := 0%Q; currentStage := EmptyString;
     pipelineStages := DEFAULT_STAGES; progressRef := None;
     auditorState := IDLE; shieldState := IDLE; actionState := IDLE;
     auditorAction := "Claude 3.5 Vision ready";
     shieldAction := "EU ESPR vector DB loaded";
     actionAction := "GLEIF + You.com ready";
     auditorItems := VNum 0%Q; shieldItems := VNum 0%Q; actionItems := VNum 0%Q;
     selectedAgentFilter := None; activeNodes := initial_nodes;
     renderFault := false; console := [] |}.

(* ================================================================== *)
(** * Asynchronous code: requests and processes                         *)
(* ================================================================== *)

Inductive exn : Type :=
  TypeError | NetworkError | SyntaxError | InvalidCharacterError.

(** A settled promise. *)
Inductive settled (A : Type) : Type :=
| Rejected
| Resolved (a : A).
Arguments Rejected {A}.
Arguments Resolved {A} a.

(** What [fetch] resolves to: the status line and what [res.json()] and
    [res.text()] will give ([None]: the body does not parse, or cannot be
    read). *)
Record Response : Type := {
  http_status : Z;
  json_body : option value;
  text_body : option string
}.

Definition ok (res : Response) : bool :=
  (200 <=? http_status res) && (http_status res <=? 299).

(** The body of the orchestration request, before [JSON.stringify]. *)
Record StartBody : Type := {
  batch_id : string;
  supplier_id : string;
  supplier_name : value;
  documents : list string;
  extracted_data : list value
}.

(** The argument [pushLog] passes to [logAuditEvent]. *)
Record LogEvent : Type := {
  audit_id : value;
  agent : value;
  action : value;
  details : value;
  severity : value
}.

(** Calls of an [async] function that nothing awaits: [task_body]
    gives their code. *)
Inductive task : Type :=
| LogAuditEvent (e : LogEvent).

(** What the code asks of the world around it. *)
Inductive req : Type :=
| DateNow                                   (* Date.now() *)
| NowISO                                    (* new Date().toISOString() *)
| MathRandom                                (* Math.random() *)
| Atob (s : string)                         (* atob(s) *)
| SupabaseEnv                               (* both env vars are set *)
| Delay (ms : Z)                            (* await delay(ms) *)
| StorageUpload (filePath : string) (file : UploadedFile)
| FetchExtract (file : UploadedFile)        (* POST /api/audit/extract *)
| FetchStart (body : StartBody)             (* POST /api/audit/start *)
| ReadBody                                  (* await res.json() / res.text() *)
| InsertAuditLog (e : LogEvent) (timestamp : string).

Definition resp (r : req) : Type :=
  match r with
  | DateNow => Z
  | NowISO => string
  | MathRandom => Q
  | Atob _ => option string
  | SupabaseEnv => bool
  | Delay _ => unit
  | StorageUpload _ _ => settled (string + string)  (* error.message + data.path *)
  | FetchExtract _ => settled Response
  | FetchStart _ => settled Response
  | ReadBody => unit
  | InsertAuditLog _ _ => settled unit
  end.

(** The requests at which the caller is suspended: timers and other
    sessions run before the answer arrives. *)
Definition is_async (r : req) : bool :=
  match r with
  | Delay _ | StorageUpload _ _ | FetchExtract _ | FetchStart _
  | ReadBody | InsertAuditLog _ _ => true
  | DateNow | NowISO | MathRandom | Atob _ | SupabaseEnv => false
  end.

(** An [async] function body: state updates, requests, detached tasks,
    and completion by [return] or by an exception. *)
Inductive Proc (A : Type) : Type :=
| Ret (a : A)
| Throw (e : exn)
| Act (f : State -> State) (k : Proc A)
| Call (r : req) (k : resp r -> Proc A)
| Fire (t : task) (k : Proc A).
Arguments Ret {A} a.
Arguments Throw {A} e.
Arguments Act {A} f k.
Arguments Call {A} r k.
Arguments Fire {A} t k.

Fixpoint bind {A B : Type} (p : Proc A) (f : A -> Proc B) : Proc B :=
  match p with
  | Ret a => f a
  | Throw e => Throw e
  | Act g k => Act g (bind k f)
  | Call r k => Call r (fun a => bind (k a) f)
  | Fire t k => Fire t (bind k f)
  end.

(** [try { p } catch (e) { h e }]. *)
Fixpoint try_catch {A : Type} (p : Proc A) (h : exn -> Proc A) : Proc A :=
  match p with
  | Ret a => Ret a
  | Throw e => h e
  | Act g k => Act g (try_catch k h)
  | Call r k => Call r (fun a => try_catch (k a) h)
  | Fire t k => Fire t (try_catch k h)
  end.

Declare Scope proc_scope.
Delimit Scope proc_scope with proc.
Notation "x <- p ;; q" := (bind p (fun x => q))
  (at level 61, p at next level, right associativity) : proc_scope.
Notation "p ;; q" := (bind p (fun _ => q))
  (at level 61, right associativity) : proc_scope.
Local Open Scope proc_scope.

Definition act (f : State -> State) : Proc unit := Act f (Ret tt).
Definition call (r : req) : Proc (resp r) := Call r Ret.

(** [await] of a promise that may reject. *)
Definition await {A : Type} (s : settled A) (e : exn) : Proc A :=
  match s with
  | Rejected => Throw e
  | Resolved a => Ret a
  end.

Definition of_option {A : Type} (o : option A) (e : exn) : Proc A :=
  match o with
  | None => Throw e
  | Some a => Ret a
  end.

(* ================================================================== *)
(** * lib/supabase                                                      *)
(* ================================================================== *)

Definition warn (msg : string) (s : State) : State :=
  setConsole (console s ++ [msg])%list s.

(** [getSupabase()]: whether a client is returned. *)
Definition getSupabase : Proc bool :=
  c <- call SupabaseEnv;;
  if c then Ret true
  else act (warn "[Verity-Nodes] Supabase not configured — missing env vars.");;
       Ret false.

Record UploadResult : Type := {
  path : string;
  upload_error : option string    (* [error], [None] for [null] *)
}.

Definition uploadAuditDocument (file : UploadedFile) (fileName auditId : string)
  : Proc UploadResult :=
  supabase <- getSupabase;;
  if negb supabase
  then Ret {| path := EmptyString; upload_error := Some "Supabase not configured" |}
  else
    now <- call DateNow;;
    let filePath := auditId ++ "/" ++ Js.int_to_string now ++ "_" ++ fileName in
    r <- call (StorageUpload filePath file);;
    o <- await r NetworkError;;
    match o with
    | inl message =>
        act (warn ("[Supabase] Upload warning: " ++ message));;
        Ret {| path := filePath; upload_error := Some message |}
    | inr data_path =>
        Ret {| path := data_path; upload_error := None |}
    end.

Definition logAuditEvent (event : LogEvent) : Proc unit :=
  supabase <- getSupabase;;
  if negb supabase then Ret tt
  else
    try_catch
      (ts <- call NowISO;;
       r <- call (InsertAuditLog event ts);;
       await r NetworkError)
      (fun _ => act (warn "[Supabase] Log insert failed:")).

(** The code of a detached task: the call in [pushLog], with its
    [.catch]. *)
Definition task_body (t : task) : Proc unit :=
  match t with
  | LogAuditEvent e =>
      try_catch (logAuditEvent e)
        (fun _ => act (warn "[Supabase] Async log failed:"))
  end.

(* ================================================================== *)
(** * Runs                                                              *)
(* ================================================================== *)


(** The world: its answer to the [n]-th request, and how many timer ticks
    fire while the caller is suspended on it. *)
Record World : Type := {
  answer : nat -> forall r : req, resp r;
  ticks : nat -> req -> nat
}.

Inductive event : Type :=
| EvCall (r : req) (a : resp r)
| EvFire (t : task).

(** One firing of the interval callback of [animateProgress]. *)
Definition tick (s : State) : State :=
  match progressRef s with
  | None => s
  | Some t =>
      let current := (current t + step t)%Q in
      if (Js.Qlt_bool 0 (step t) && Qle_bool (target t) current)
         || (Js.Qlt_bool (step t) 0 && Qle_bool current (target t))
      then setExtractionProgress (target t) (setProgressRef None s)
      else setExtractionProgress current
             (setProgressRef
                (Some {| current := current; step := step t; target := target t |}) s)
  end.

(** At most [m] firings, until the interval clears itself; with the
    state, the progress values written. *)
Fixpoint run_ticks (m : nat) (s : State) : State * list Q :=
  match m with
  | O => (s, [])
  | S m' =>
      match progressRef s with
      | None => (s, [])
      | Some _ =>
          let s' := tick s in
          let (s'', qs) := run_ticks m' s' in
          (s'', extractionProgress s' :: qs)
      end
  end.

(** The outcome of a run: the last state, the value returned or the
    exception thrown, the requests made with their answers and the tasks
    started, the progress values displayed, and the number of the next
    request. *)
Record Result (A : Type) : Type := {
  final : State;
  returned : A + exn;
  events : list event;
  shown : list Q;
  asked : nat
}.
Arguments final {A} r.
Arguments returned {A} r.
Arguments events {A} r.
Arguments shown {A} r.
Arguments asked {A} r.
Arguments Build_Result {A} final returned events shown asked.

Definition before {A : Type} (evs : list event) (qs : list Q) (r : Result A)
  : Result A :=
  {| final := final r; returned := returned r;
     events := (evs ++ events r)%list; shown := (qs ++ shown r)%list;
     asked := asked r |}.

(** What an [async] function does when it is called: it runs up to the
    first request at which it is suspended.  With the state and the
    rest of the process, the requests answered on the way.  (This is the
    start of a detached task; none of the code starts a task of its
    own.) *)
Fixpoint prefix {A : Type} (p : Proc A) (w : World) (n : nat) (s : State)
  : State * Proc A * nat * list event :=
  match p with
  | Ret _ | Throw _ => (s, p, n, [])
  | Act f k => prefix k w n (f s)
  | Fire t k =>
      let '(s', p', n', evs) := prefix k w n s in
      (s', p', n', EvFire t :: evs)
  | Call r k =>
      if is_async r then (s, p, n, [])
      else
        let a := answer w n r in
        let '(s', p', n', evs) := prefix (k a) w (S n) s in
        (s', p', n', EvCall r a :: evs)
  end.

(** The call of [logAuditEvent] in [pushLog], which nothing awaits. *)
Definition start (t : task) (w : World) (n : nat) (s : State)
  : State * Proc unit * nat * list event :=
  prefix (task_body t) w n s.

(** The run of one process alone, from request number [n] and state
    [s].  A detached task runs at once up to its first suspension; what
    it does when its request is answered is not part of this run (see
    [resume]). *)
Fixpoint run {A : Type} (p : Proc A) (w : World) (n : nat) (s : State)
  : Result A :=
  match p with
  | Ret a => Build_Result s (inl a) [] [] n
  | Throw e => Build_Result s (inr e) [] [] n
  | Act f k => run k w n (f s)
  | Fire t k =>
      let '(s1, _, n1, evs) := start t w n s in
      before (EvFire t :: evs) [] (run k w n1 s1)
  | Call r k =>
      let a := answer w n r in
      let st := if is_async r then run_ticks (ticks w n r) s else (s, []) in
      before [EvCall r a] (snd st) (run (k a) w (S n) (fst st))
  end.

(** ** Several processes at once

    A process runs without interruption up to its next suspension
    ([advance]), starting detached tasks on the way; each of them runs
    up to its own first suspension and is then left to the scheduler,
    which fires a timer tick or resumes one of the suspended processes
    with the world's answer. *)
Fixpoint advance {A : Type} (p : Proc A) (w : World) (n : nat) (s : State)
  : State * Proc A * nat * list (Proc unit) :=
  match p with
  | Ret _ | Throw _ => (s, p, n, [])
  | Act f k => advance k w n (f s)
  | Fire t k =>
      let '(s1, t1, n1, _) := start t w n s in
      let '(s', p', n', ts) := advance k w n1 s1 in
      (s', p', n', t1 :: ts)
  | Call r k =>
      if is_async r then (s, p, n, [])
      else advance (k (answer w n r)) w (S n) s
  end.

Definition resume {A : Type} (p : Proc A) (w : World) (n : nat) (s : State)
  : State * Proc A * nat * list (Proc unit) :=
  match p with
  | Call r k => advance (k (answer w n r)) w (S n) s
  | _ => (s, p, n, [])
  end.

(* ================================================================== *)
(** * page.tsx: the helpers of WarRoom                                  *)
(* ================================================================== *)

Fixpoint set_status_at (index : nat) (st : StageStatus) (l : list ProcessingStage)
  : list ProcessingStage :=
  match l, index with
  | [], _ => []
  | x :: l', O => {| label := label x; icon := icon x; status := st |} :: l'
  | x :: l', S i => x :: set_status_at i st l'
  end.

(** [setPipelineStages((prev) => prev.map(...))]. *)
Definition set_stage (index : nat) (st : StageStatus) (s : State) : State :=
  setPipelineStages (set_status_at index st (pipelineStages s)) s.

Definition updateStage (index : nat) (st : StageStatus) : Proc unit :=
  act (set_stage index st).

(** [animateProgress] reads [extractionProgress] from the closure of the
    render that created it: [captured] is that value.  Installing the new
    interval replaces, and so clears, the one in [progressRef]. *)
Definition animate (captured : Q) (target duration : Q) (s : State) : State :=
  setProgressRef
    (Some {| current := captured;
             step := ((target - captured) / (duration / 40))%Q;
             target := target |}) s.

Definition animateProgress (captured : Q) (target duration : Q) : Proc unit :=
  act (animate captured target duration).

(** [setAgentLog((prev) => [...prev, entry])]. *)
Definition append_log (entry : Entry) (s : State) : State :=
  setAgentLog (agentLog s ++ [entry])%list s.

(** The event [pushLog] hands to [logAuditEvent]. *)
Definition persist_of (entry : Entry) : LogEvent :=
  {| audit_id := Js.lookup "audit_id" entry;
     agent := Js.lookup "agent" entry;
     action := Js.lookup "action" entry;
     details := Js.lookup "details" entry;
     severity := Js.lookup "severity" entry |}.

(** [logAuditEvent(...)] is called, and runs up to its first [await];
    its promise is given a [.catch] and is not awaited. *)
Definition pushLog (entry : Entry) : Proc unit :=
  Act (append_log entry)
    (if Js.truthy (Js.lookup "audit_id" entry)
     then Fire (LogAuditEvent (persist_of entry)) (Ret tt)
     else Ret tt).

Definition mkLog (agent action details severity : string) (audit_id : value)
  : Proc Entry :=
  ts <- call NowISO;;
  Ret [ ("audit_id", audit_id); ("timestamp", VStr ts); ("agent", VStr agent);
        ("action", VStr action); ("details", VStr details);
        ("severity", VStr severity) ].

Definition log (agent action details severity auditId : string) : Proc unit :=
  e <- mkLog agent action details severity (VStr auditId);;
  pushLog e.

Definition resetAgents (s : State) : State :=
  setSelectedAgentFilter None
    (setActionItems (VNum 0%Q) (setShieldItems (VNum 0%Q) (setAuditorItems (VNum 0%Q)
    (setActionAction "GLEIF + You.com ready"
    (setShieldAction "EU ESPR vector DB loaded"
    (setAuditorAction "Claude 3.5 Vision ready"
    (setActionState IDLE (setShieldState IDLE (setAuditorState IDLE s))))))))).

(** The feed that is displayed:
    [agentLog.filter((log) => log.audit_id === currentAuditId)]. *)
Definition view (s : State) : list Entry :=
  filter (fun e => Js.is_str (Js.lookup "audit_id" e) (currentAuditId s))
         (agentLog s).

(** The double quote, for the texts that contain one. *)
Definition dq : string := String (ascii_of_nat 34) EmptyString.

(* ================================================================== *)
(** * page.tsx: handleFilesAccepted                                     *)
(* ================================================================== *)

Section Pipeline.
Context `{JsRuntime}.

(** [for (const log of v)]: the elements, or [None] for the
    [TypeError] of a value that is not iterable. *)
Definition iterate (v : value) : option (list value) :=
  match v with
  | VArr l => Some l
  | VStr s => Some (map (fun c => VStr (String c EmptyString)) (list_ascii_of_string s))
  | _ => None
  end.

Fixpoint indexed (i : nat) (l : list value) : list (string * value) :=
  match l with
  | [] => []
  | x :: l' => (Js.int_to_string (Z.of_nat i), x) :: indexed (S i) l'
  end.

(** The own enumerable properties that [{...v}] copies. *)
Definition spread (v : value) : list (string * value) :=
  match v with
  | VObj m => m
  | VArr l => indexed 0 l
  | VStr s => indexed 0 (map (fun c => VStr (String c EmptyString)) (list_ascii_of_string s))
  | _ => []
  end.

Definition prop (v : value) (k : string) : Proc value :=
  of_option (Js.get v k) TypeError.

(** [${v}] in a template literal. *)
Definition interpolate (v : value) : Proc string :=
  of_option (Js.to_string v) TypeError.

(** *** Stage 1: the upload loop *)

Definition upload_one (auditId : string) (file : UploadedFile) : Proc unit :=
  try_catch
    (byteString <- call (Atob (base64 file));;
     _ <- of_option byteString InvalidCharacterError;;
     result <- uploadAuditDocument file (name file) auditId;;
     match upload_error result with
     | Some e =>
         if negb (String.eqb e EmptyString)
         then log "SYSTEM" "SUPABASE_WARN"
                ("Supabase upload: " ++ e ++ ". Proceeding with in-memory pipeline.")
                "WARNING" auditId
         else log "SYSTEM" "SUPABASE_STORED"
                ("Document " ++ dq ++ name file ++ dq
                 ++ " stored in Supabase bucket 'audits' at path: " ++ path result ++ ".")
                "INFO" auditId
     | None =>
         log "SYSTEM" "SUPABASE_STORED"
           ("Document " ++ dq ++ name file ++ dq
            ++ " stored in Supabase bucket 'audits' at path: " ++ path result ++ ".")
           "INFO" auditId
     end)
    (fun _ =>
       log "SYSTEM" "SUPABASE_SKIP"
         "Supabase storage unavailable. Proceeding with in-memory pipeline."
         "WARNING" auditId).

Fixpoint upload_loop (auditId : string) (files : list UploadedFile) : Proc unit :=
  match files with
  | [] => Ret tt
  | file :: rest => upload_one auditId file;; upload_loop auditId rest
  end.

(** *** Stage 2: the extraction loop

    The local variables [extractedData] and [allExtractedData] are
    threaded through the iterations. *)

(** The text of the [EXTRACTION_COMPLETE] entry. *)
Definition extraction_details (extractedData data : value) : Proc string :=
  vendor <- interpolate
              (Js.or_else (Js.opt_get extractedData "vendor_name") (VStr "?"));;
  origin <- interpolate
              (Js.or_else (Js.opt_get extractedData "country_of_origin") (VStr "?"));;
  let certs :=
    stringify (Js.or_else (Js.opt_get extractedData "certificate_numbers") (VArr [])) in
  tokens <- prop data "tokens";;
  input <- interpolate (Js.or_else (Js.opt_get tokens "input") (VNum 0%Q));;
  output <- interpolate (Js.or_else (Js.opt_get tokens "output") (VNum 0%Q));;
  Ret ("Extracted: Vendor=" ++ dq ++ vendor ++ dq ++ ", Origin=" ++ dq ++ origin
       ++ dq ++ ", Certs: " ++ certs ++ ". Tokens: " ++ input ++ "+" ++ output
       ++ ".").

(** The [catch] block of one iteration; [vars] are the values the two
    local variables have when it is entered. *)
Definition extraction_exception (auditId : string) (file : UploadedFile)
           (vars : value * list value) (err : exn) : Proc (value * list value) :=
  act (warn "Extraction API call failed:");;
  log "DEEP_AUDITOR" "EXTRACTION_EXCEPTION"
    ("Network error during extraction of " ++ dq ++ name file ++ dq ++ ".")
    "ERROR" auditId;;
  Ret vars.

(** One iteration.  The two variables are assigned inside the [try]
    block, before the entry is written: an exception thrown after that
    point reaches the [catch] block with the new values, which is what
    the inner [try_catch] says. *)
Definition extract_one (auditId : string) (file : UploadedFile)
           (extractedData : value) (allExtractedData : list value)
  : Proc (value * list value) :=
  try_catch
    (byteString <- call (Atob (base64 file));;
     _ <- of_option byteString InvalidCharacterError;;
     r <- call (FetchExtract file);;
     res <- await r NetworkError;;
     if ok res then
       call ReadBody;;
       data <- of_option (json_body res) SyntaxError;;
       st <- prop data "status";;
       if Js.is_str st "success" then
         extraction <- prop data "extraction";;
         let vars := (extraction, (allExtractedData ++ [extraction])%list) in
         try_catch
           (text <- extraction_details extraction data;;
            log "DEEP_AUDITOR" "EXTRACTION_COMPLETE" text "INFO" auditId;;
            Ret vars)
           (extraction_exception auditId file vars)
       else
         err <- prop data "error";;
         text <- interpolate (Js.or_else err (VStr "Unknown error"));;
         log "DEEP_AUDITOR" "EXTRACTION_ERROR"
           ("Extraction failed for " ++ dq ++ name file ++ dq ++ ": " ++ text
            ++ ". Proceeding without this document.")
           "ERROR" auditId;;
         Ret (extractedData, allExtractedData)
     else
       call ReadBody;;
       errorText <- of_option (text_body res) NetworkError;;
       log "DEEP_AUDITOR" "EXTRACTION_FAILED"
         ("Backend error (" ++ Js.int_to_string (http_status res) ++ ") for "
          ++ dq ++ name file ++ dq ++ ": " ++ substring 0 100 errorText ++ ".")
         "ERROR" auditId;;
       Ret (extractedData, allExtractedData))
    (extraction_exception auditId file (extractedData, allExtractedData)).

Fixpoint extract_loop (auditId : string) (files : list UploadedFile)
         (extractedData : value) (allExtractedData : list value)
  : Proc (value * list value) :=
  match files with
  | [] => Ret (extractedData, allExtractedData)
  | file :: rest =>
      x <- extract_one auditId file extractedData allExtractedData;;
      extract_loop auditId rest (fst x) (snd x)
  end.

(** *** Stages 3 to 5: the orchestration request *)

Fixpoint replay (auditId : string) (logs : list value) : Proc unit :=
  match logs with
  | [] => Ret tt
  | l :: rest =>
      pushLog (Js.obj_set "audit_id" (VStr auditId) (spread l));;
      call (Delay 150);;
      replay auditId rest
  end.

(** [findings.some((f) => f.finding_type === ty)] on the elements. *)
Fixpoint some_type (ty : string) (l : list value) : option bool :=
  match l with
  | [] => Some false
  | f :: l' =>
      match Js.get f "finding_type" with
      | None => None
      | Some t => if Js.is_str t ty then Some true else some_type ty l'
      end
  end.

(** [v.some(...)]: only an array has the method. *)
Definition some_finding (ty : string) (v : value) : option bool :=
  match v with
  | VArr l => some_type ty l
  | _ => None
  end.

Definition starts_with (v : value) (p : string) : option bool :=
  match v with
  | VStr s => Some (String.prefix p s)
  | _ => None
  end.

Definition with_status (n : Node) (st : string) : Node :=
  {| node_id := node_id n; node_label := node_label n; node_type := node_type n;
     node_status := st; location := location n; subLabel := subLabel n;
     emissions := emissions n |}.

Definition with_emissions (n : Node) (e : option string) : Node :=
  {| node_id := node_id n; node_label := node_label n; node_type := node_type n;
     node_status := node_status n; location := location n; subLabel := subLabel n;
     emissions := e |}.

(** The callback of [prev.map] in the topology update; [None] when it
    throws. *)
Definition update_node (realAuditData : value) (hasOriginMismatch : bool)
           (co2 : value) (n : Node) : option Node :=
  if String.eqb (node_id n) "1" then
    Some (with_status n (if hasOriginMismatch then "flagged" else "verified"))
  else if String.eqb (node_id n) "2" then
    match
      (if Js.is_zero (Js.opt_get realAuditData "findings_count")
       then starts_with (Js.opt_get realAuditData "audit_id") "VERITY-"
       else Some false)
    with
    | None => None
    | Some c => Some (with_status n (if c then "verified" else node_status n))
    end
  else if String.eqb (node_id n) "3" then
    if Js.truthy co2 then
      match co2 with
      | VNum q => Some (with_emissions n (Some (Js.toFixed q 1 ++ "kg")))
      | _ => None
      end
    else Some (with_emissions n (emissions n))
  else Some n.

Fixpoint map_nodes (f : Node -> option Node) (l : list Node) : option (list Node) :=
  match l with
  | [] => Some []
  | n :: l' =>
      match f n with
      | None => None
      | Some n' =>
          match map_nodes f l' with
          | None => None
          | Some r => Some (n' :: r)
          end
      end
  end.

(** [setActiveNodes(prev => prev.map(...))]: React runs the updater
    while rendering, outside the handler's [try]; when it throws the
    nodes are not updated and the render fails. *)
Definition update_topology (realAuditData : value) (hasOriginMismatch : bool)
           (co2 : value) (s : State) : State :=
  match map_nodes (update_node realAuditData hasOriginMismatch co2) (activeNodes s) with
  | Some nodes => setActiveNodes nodes s
  | None => setRenderFault true s
  end.

Section Session.
(** [captured]: the value of [extractionProgress] in the render whose
    callbacks the drop zone invoked. *)
Variable captured : Q.
Variable auditId : string.
Variable files : list UploadedFile.

Definition apply_result (realAuditData : value) : Proc unit :=
  act (setAuditorState SUCCESS);;
  findings_count <- prop realAuditData "findings_count";;
  text <- interpolate (Js.or_else findings_count (VNum 0%Q));;
  act (setAuditorAction (text ++ " findings"));;
  act (setAuditorItems (Js.or_else findings_count (VNum 0%Q)));;
  updateStage 2 complete;;
  act (setShieldState SUCCESS);;
  violations_count <- prop realAuditData "violations_count";;
  text <- interpolate (Js.or_else violations_count (VNum 0%Q));;
  act (setShieldAction (text ++ " violations"));;
  act (setShieldItems (Js.or_else violations_count (VNum 0%Q)));;
  updateStage 3 complete;;
  act (setActionState SUCCESS);;
  resolution_status <- prop realAuditData "resolution_status";;
  text <- interpolate (Js.or_else resolution_status (VStr "UNKNOWN"));;
  act (setActionAction ("Status: " ++ text));;
  corrective_actions <- prop realAuditData "corrective_actions";;
  act (setActionItems
         (Js.or_else (Js.opt_get corrective_actions "length") (VNum 0%Q)));;
  updateStage 4 complete;;
  act (setCurrentStage
         "Pipeline complete. All agents reported. AI Engine cycle finished.");;
  act (setAuditResult realAuditData);;
  exposure_eur <- prop realAuditData "total_financial_exposure_eur";;
  act (setExposure (Js.or_else exposure_eur (VNum 0%Q)));;
  found <- prop realAuditData "findings";;
  hasOriginMismatch <-
    of_option (some_finding "SOURCE_MISMATCH" (Js.or_else found (VArr []))) TypeError;;
  _ <- of_option (some_finding "QUANTITY_DRIFT" (Js.or_else found (VArr []))) TypeError;;
  emissions_data <- prop realAuditData "emissions_data";;
  let co2 := Js.opt_get emissions_data "total_emissions_kg" in
  act (update_topology realAuditData hasOriginMismatch co2);;
  violations_count <- prop realAuditData "violations_count";;
  escalate <- of_option (Js.gt_zero violations_count) TypeError;;
  if escalate then
    act (setActionState ESCALATED);;
    act (setActionAction "Drafting Escalation Email...")
  else Ret tt.

(** The [try] block from the response on. *)
Definition respond (res : Response) : Proc unit :=
  call ReadBody;;
  realAuditData <- of_option (json_body res) SyntaxError;;
  animateProgress captured 100 500;;
  agent_log <- prop realAuditData "agent_log";;
  logs <- of_option (iterate (Js.or_else agent_log (VArr []))) TypeError;;
  replay auditId logs;;
  apply_result realAuditData.

(** The [catch] block. *)
Definition on_failure (err : exn) : Proc unit :=
  act (warn "Agent audit failed via API");;
  act (setCurrentStage "Pipeline error: Agent backend unreachable.");;
  act (setAuditorState ERROR);;
  act (setShieldState ERROR);;
  act (setActionState ERROR);;
  updateStage 2 error;;
  updateStage 3 error;;
  updateStage 4 error.

Definition start_body (random : Q) (extractedData : value)
           (allExtractedData : list value) : StartBody :=
  {| batch_id := auditId;
     supplier_id :=
       "SUP-" ++ Js.number_to_string (inject_Z (Qfloor (random * 10000)));
     supplier_name :=
       Js.or_else (Js.opt_get extractedData "vendor_name") (VStr "Unknown Supplier");
     documents := map name files;
     extracted_data := allExtractedData |}.

Definition orchestration (extractedData : value) (allExtractedData : list value)
  : Proc unit :=
  try_catch
    (random <- call MathRandom;;
     r <- call (FetchStart (start_body random extractedData allExtractedData));;
     res <- await r NetworkError;;
     respond res)
    on_failure.

(** Stage 1. *)
Definition ingest : Proc unit :=
  updateStage 0 active;;
  act (setCurrentStage "Ingesting documents into Supabase 'audits' bucket...");;
  log "SYSTEM" "FILE_RECEIVED"
    ("File received: " ++ String.concat ", " (map name files)
     ++ ". Initializing DeepAuditor for OCR and Forensic Analysis...")
    "INFO" auditId;;
  upload_loop auditId files;;
  call (Delay 400);;
  log "SYSTEM" "INGESTION_COMPLETE"
    ("Ingestion Complete. " ++ Js.int_to_string (Z.of_nat (List.length files))
     ++ " file(s) stored in Supabase. Forwarding to Claude 3.5 Vision for forensic extraction.")
    "INFO" auditId;;
  updateStage 0 complete;;
  animateProgress captured 15 400.

(** Stage 2, up to the loop over the files. *)
Definition begin_extraction : Proc unit :=
  updateStage 1 active;;
  act (setAuditorState PROCESSING);;
  act (setAuditorAction "Claude Vision: Forensic field extraction...");;
  act (setCurrentStage "Claude 3.5 Sonnet Vision: Forensic field extraction...");;
  log "DEEP_AUDITOR" "CLAUDE_VISION_OCR"
    ("Sending " ++ Js.int_to_string (Z.of_nat (List.length files))
     ++ " document(s) to Claude 3.5 Sonnet Vision — extracting vendor, dates, origin, certificates with forensic-grade precision.")
    "INFO" auditId;;
  call (Delay 300);;
  animateProgress captured 30 1000.

(** Stage 2, after the loop. *)
Definition end_extraction : Proc unit :=
  updateStage 1 complete;;
  animateProgress captured 40 400;;
  call (Delay 300).

(** Stage 2; the result is the pair of [extractedData] and
    [allExtractedData]. *)
Definition extraction : Proc (value * list value) :=
  begin_extraction;;
  x <- extract_loop auditId files VNull [];;
  end_extraction;;
  Ret x.

(** Stages 3 to 5, up to the orchestration request. *)
Definition begin_audit : Proc unit :=
  updateStage 2 active;;
  act (setAuditorState PROCESSING);;
  act (setShieldState PROCESSING);;
  act (setActionState PROCESSING);;
  act (setAuditorAction "Waiting for Claude Core Analysis...");;
  act (setShieldAction "Waiting for Compliance Check...");;
  act (setActionAction "Waiting for Resolution Strategy...");;
  act (setCurrentStage
         "DeepAuditor: Cross-referencing against global knowledge graph...");;
  animateProgress captured 95 30000.

(** Stages 3 to 5. *)
Definition audit (extractedData : value) (allExtractedData : list value)
  : Proc unit :=
  begin_audit;;
  orchestration extractedData allExtractedData;;
  act (setIsExtracting false).

(** Everything after the session id is set. *)
Definition stages : Proc unit :=
  ingest;;
  x <- extraction;;
  audit (fst x) (snd x).
End Session.

(** The total state purge that opens [handleFilesAccepted]. *)
Definition purge (s : State) : State :=
  resetAgents
    (setAuditResult VNull
    (setAgentLog []
    (setRiskScore 0%Q
    (setExposure (VNum 0%Q)
    (setViolations []
    (setFindings [] s)))))).

Definition handleFilesAccepted (captured : Q) (files : list UploadedFile)
  : Proc unit :=
  act purge;;
  match files with
  | [] => Ret tt
  | _ :: _ =>
      act (setIsExtracting true);;
      act (setExtractionProgress 0%Q);;
      act (setPipelineStages
             (map (fun s => {| label := label s; icon := icon s; status := pending |})
                  DEFAULT_STAGES));;
      now <- call DateNow;;
      let auditId := "VERITY-" ++ Js.int_to_string now in
      act (setCurrentAuditId auditId);;
      stages captured auditId files
  end.

(** The state in which the stages start, for the clock reading [now]. *)
Definition opened (now : Z) (s : State) : State :=
  setCurrentAuditId ("VERITY-" ++ Js.int_to_string now)
    (setPipelineStages
       (map (fun s => {| label := label s; icon := icon s; status := pending |})
            DEFAULT_STAGES)
       (setExtractionProgress 0%Q (setIsExtracting true (purge s)))).

(** A drop on the drop zone, or [runAudit]: the handler of the latest
    render runs, so the progress value its [animateProgress] captured
    is the one displayed at that moment. *)
Definition submit (files : list UploadedFile) (w : World) (n : nat) (s : State)
  : Result unit :=
  run (handleFilesAccepted (extractionProgress s) files) w n s.

(** ** Several sessions at once *)

Inductive choice : Type :=
| Tick
| Resume (i : nat)
| Submit (files : list UploadedFile).

Definition pool : Type := list (Proc unit).

Fixpoint replace_nth {A : Type} (i : nat) (x : A) (l : list A) : list A :=
  match l, i with
  | [], _ => []
  | _ :: l', O => x :: l'
  | y :: l', S i' => y :: replace_nth i' x l'
  end.

(** One step of the event loop: the processes of the pool are the
    sessions and the detached tasks, in the order they were started,
    each suspended at a request or ended. *)
Definition schedule_step (w : World) (c : choice) (st : State * pool * nat)
  : State * pool * nat :=
  let '(s, ps, n) := st in
  match c with
  | Tick => (tick s, ps, n)
  | Resume i =>
      match nth_error ps i with
      | None => st
      | Some p =>
          let '(s', p', n', ts) := resume p w n s in
          (s', (replace_nth i p' ps ++ ts)%list, n')
      end
  | Submit files =>
      let '(s', p', n', ts) :=
        advance (handleFilesAccepted (extractionProgress s) files) w n s in
      (s', (ps ++ p' :: ts)%list, n')
  end.

Definition schedule (w : World) (cs : list choice) (st : State * pool * nat)
  : State * pool * nat :=
  fold_left (fun st c => schedule_step w c st) cs st.

End Pipeline.

(* ================================================================== *)
(** * The footprint of a process                                        *)
(* ================================================================== *)

(** [Shape PA PL PC PT p]: every state update of [p] is in [PA], every
    request in [PC], every exception that escapes in [PT], and a task is
    started only by [pushLog], for an entry in [PL]. *)
Section Shape.
Variable PA : (State -> State) -> Prop.
Variable PL : Entry -> Prop.
Variable PC : req -> Prop.
Variable PT : exn -> Prop.

Inductive Shape {A : Type} : Proc A -> Prop :=
| Sh_Ret a : Shape (Ret a)
| Sh_Throw e : PT e -> Shape (Throw e)
| Sh_Push e k :
    PL e -> Shape k ->
    Shape (Act (append_log e) (Fire (LogAuditEvent (persist_of e)) k))
| Sh_Act f k : PA f -> Shape k -> Shape (Act f k)
| Sh_Call r k : PC r -> (forall a, Shape (k a)) -> Shape (Call r k).
End Shape.

(** An entry that carries the session id [id]. *)
Definition tagged (id : string) (e : Entry) : Prop :=
  Js.lookup "audit_id" e = VStr id.

Section Updates.
Context `{JsRuntime}.

(** The state updates of the stages; [ok] bounds the indices of the
    stage entries written and [pub] the values published as the audit
    result. *)
Inductive Update (ok : nat -> Prop) (pub : value -> Prop)
  : (State -> State) -> Prop :=
| Up_warn msg : Update ok pub (warn msg)
| Up_stage i st : ok i -> Update ok pub (set_stage i st)
| Up_animate c t d : Update ok pub (animate c t d)
| Up_currentStage x : Update ok pub (setCurrentStage x)
| Up_auditorState x : Update ok pub (setAuditorState x)
| Up_shieldState x : Update ok pub (setShieldState x)
| Up_actionState x : Update ok pub (setActionState x)
| Up_auditorAction x : Update ok pub (setAuditorAction x)
| Up_shieldAction x : Update ok pub (setShieldAction x)
| Up_actionAction x : Update ok pub (setActionAction x)
| Up_auditorItems x : Update ok pub (setAuditorItems x)
| Up_shieldItems x : Update ok pub (setShieldItems x)
| Up_actionItems x : Update ok pub (setActionItems x)
| Up_auditResult x : pub x -> Update ok pub (setAuditResult x)
| Up_exposure x : Update ok pub (setExposure x)
| Up_topology v b c : Update ok pub (update_topology v b c)
| Up_isExtracting x : Update ok pub (setIsExtracting x).
End Updates.

(** The requests of each stage; each of them logs, and so reads the
    configuration and the clock. *)
Definition ingest_call (r : req) : Prop :=
  match r with
  | NowISO | Atob _ | SupabaseEnv | DateNow | StorageUpload _ _ | Delay _ => True
  | _ => False
  end.

Definition extraction_call (r : req) : Prop :=
  match r with
  | NowISO | SupabaseEnv | Atob _ | FetchExtract _ | ReadBody | Delay _ => True
  | _ => False
  end.

Definition audit_call (r : req) : Prop :=
  match r with
  | NowISO | SupabaseEnv | ReadBody | Delay _ => True
  | _ => False
  end.

(** The requests that a call of [logAuditEvent] makes before it is
    suspended. *)
Definition env_call (ev : event) : Prop :=
  match ev with
  | EvCall SupabaseEnv _ | EvCall NowISO _ => True
  | _ => False
  end.

Definition never (x : value) : Prop := False.
Definition no_throw (e : exn) : Prop := False.
Definition any_throw (e : exn) : Prop := True.

(* ================================================================== *)
(** * What the claims speak of                                          *)
(* ================================================================== *)

(** A whole number of euros that a JavaScript number holds exactly
    ([Number.MAX_SAFE_INTEGER] is [2^53 - 1]). *)
Definition euro_amount (z : Z) : Prop := Z.abs z <= 2 ^ 53 - 1.

Definition stage_statuses (s : State) : list StageStatus :=
  map status (pipelineStages s).

(** The two terminal states of a session. *)
Definition fully_complete (s : State) : Prop :=
  stage_statuses s = [complete; complete; complete; complete; complete]
  /\ auditResult s <> VNull.

Definition fully_error (s : State) : Prop :=
  (exists a b, stage_statuses s = [a; b; error; error; error])
  /\ auditResult s = VNull.

Fixpoint nondecreasing (l : list Q) : bool :=
  match l with
  | [] => true
  | x :: l' =>
      match l' with
      | [] => true
      | y :: _ => Qle_bool x y && nondecreasing l'
      end
  end.

(** The detached tasks a run started. *)
Definition fired (evs : list event) : list task :=
  flat_map (fun e => match e with EvFire t => [t] | _ => [] end) evs.

(** The bodies of the orchestration requests a run sent. *)
Definition start_bodies (evs : list event) : list StartBody :=
  flat_map (fun e => match e with EvCall (FetchStart b) _ => [b] | _ => [] end) evs.

(** The answers the orchestration requests of a run received. *)
Definition start_answers (evs : list event) : list (settled Response) :=
  flat_map (fun e => match e with EvCall (FetchStart _) a => [a] | _ => [] end) evs.

(** The orchestration service is unreachable: the request is rejected,
    or the body of the response does not parse. *)
Definition unreachable (a : settled Response) : Prop :=
  match a with
  | Rejected => True
  | Resolved res => json_body res = None
  end.

(** The files whose extraction was requested. *)
Definition extract_requests (evs : list event) : list UploadedFile :=
  flat_map (fun e => match e with EvCall (FetchExtract f) _ => [f] | _ => [] end) evs.

(** An extraction succeeds when the response is 2xx, its body parses and
    carries [status === "success"]; what is kept is [data.extraction]. *)
Definition extraction_of (a : settled Response) : option value :=
  match a with
  | Rejected => None
  | Resolved res =>
      if ok res then
        match json_body res with
        | None => None
        | Some data =>
            match Js.get data "status" with
            | None => None
            | Some st =>
                if Js.is_str st "success" then Js.get data "extraction" else None
            end
        end
      else None
  end.

(** The extraction objects of the successful extraction responses of a
    run, in the order they arrived. *)
Definition extractions (evs : list event) : list value :=
  flat_map (fun e =>
              match e with
              | EvCall (FetchExtract _) a =>
                  match extraction_of a with
                  | Some x => [x]
                  | None => []
                  end
              | _ => []
              end) evs.

(** The files whose extraction succeeded, each with its extraction
    object, in the order the responses arrived. *)
Definition successes (evs : list event) : list (UploadedFile * value) :=
  flat_map (fun e =>
              match e with
              | EvCall (FetchExtract f) a =>
                  match extraction_of a with
                  | Some x => [(f, x)]
                  | None => []
                  end
              | _ => []
              end) evs.

Inductive subsequence {A : Type} : list A -> list A -> Prop :=
| sub_nil : subsequence [] []
| sub_skip x l1 l2 : subsequence l1 l2 -> subsequence l1 (x :: l2)
| sub_take x l1 l2 : subsequence l1 l2 -> subsequence (x :: l1) (x :: l2).

(** Everything but the diagnostic console. *)
Definition pipeline_state (s : State) : State := setConsole [] s.

(** The run of [p] followed by the run of what the code does next. *)
Definition then_run {A B : Type} (r : Result A) (k : A -> nat -> State -> Result B)
  : Result B :=
  match returned r with
  | inl a => before (events r) (shown r) (k a (asked r) (final r))
  | inr e => Build_Result (final r) (inr e) (events r) (shown r) (asked r)
  end.

Definition catch_run {A : Type} (r : Result A) (h : exn -> nat -> State -> Result A)
  : Result A :=
  match returned r with
  | inl a => Build_Result (final r) (inl a) (events r) (shown r) (asked r)
  | inr e => before (events r) (shown r) (h e (asked r) (final r))
  end.

Definition with_final {A : Type} (g : State -> State) (r : Result A) : Result A :=
  {| final := g (final r); returned := returned r;
     events := events r; shown := shown r; asked := asked r |}.

(** What one iteration of the extraction loop does, for the file [f],
    from the state [s] and the values [ed] and [all] of [extractedData]
    and [allExtractedData]: one entry is logged.  Either the response
    passed the tests of the code and its extraction object is appended,
    with an entry EXTRACTION_COMPLETE, or EXTRACTION_EXCEPTION when the
    text of the entry could not be built; or the entry has severity
    ERROR and both variables are unchanged. *)
Definition extracted_one (id : string) (f : UploadedFile) (ed : value)
           (all : list value) (s : State) (r : Result (value * list value)) : Prop :=
  exists e,
    agentLog (final r) = (agentLog s ++ [e])%list /\
    tagged id e /\ Js.lookup "agent" e = VStr "DEEP_AUDITOR" /\
    ((exists x,
         returned r = inl (x, (all ++ [x])%list) /\
         extractions (events r) = [x] /\
         extract_requests (events r) = [f] /\
         ((Js.lookup "severity" e = VStr "INFO" /\
           Js.lookup "action" e = VStr "EXTRACTION_COMPLETE") \/
          (Js.lookup "severity" e = VStr "ERROR" /\
           Js.lookup "action" e = VStr "EXTRACTION_EXCEPTION")))
     \/
     (returned r = inl (ed, all) /\
      extractions (events r) = [] /\
      (extract_requests (events r) = [f] \/ extract_requests (events r) = []) /\
      Js.lookup "severity" e = VStr "ERROR")).

Definition logged_error (e : Entry) : bool :=
  Js.is_str (Js.lookup "severity" e) "ERROR".

(** ** Scenarios *)

Module Scenario.

(** [String(n)] for the numbers of the examples, which have a short
    decimal expansion and lie between [10^-6] and [10^21]: the digits
    of that expansion. *)
Fixpoint fraction_digits (fuel : nat) (r : Q) : string :=
  match fuel with
  | O => EmptyString
  | S fuel' =>
      if Qeq_bool r 0 then EmptyString
      else
        let d := Qfloor (r * 10) in
        Js.digit d ++ fraction_digits fuel' (r * 10 - inject_Z d)%Q
  end.

Definition decimal (q : Q) : string :=
  let a := Qabs q in
  let i := Qfloor a in
  (if Js.Qlt_bool q 0 then "-" else EmptyString)
  ++ Js.digits i
  ++ (if Qeq_bool (a - inject_Z i) 0 then EmptyString
      else "." ++ fraction_digits 20 (a - inject_Z i)%Q).

(** A run time for closed examples: the only array they pass to
    [JSON.stringify] is the empty one, and they pass no string to
    [Number]. *)
Definition runtime : JsRuntime :=
  {| render := fun v => match v with VNum q => decimal q | _ => EmptyString end;
     numeric := fun _ => None;
     stringify := fun _ => "[]" |}.

Definition invoice : UploadedFile :=
  {| name := "INV-2026-0402-003.pdf"; size := 245000;
     type := "application/pdf"; base64 := EmptyString |}.

Definition manifest : UploadedFile :=
  {| name := "manifest.pdf"; size := 1024;
     type := "application/pdf"; base64 := EmptyString |}.

Definition extracted : value :=
  VObj [ ("status", VStr "success");
         ("extraction", VObj [ ("vendor_name", VStr "GreenTextile GmbH");
                               ("country_of_origin", VStr "Bangladesh") ]) ].

(** A result of the orchestration service. *)
Definition audited : value :=
  VObj [ ("audit_id", VStr "VERITY-AUDIT-1");
         ("findings_count", VNum 1%Q);
         ("violations_count", VNum 2%Q);
         ("total_financial_exposure_eur", VNum (inject_Z 6000000));
         ("findings", VArr [ VObj [ ("finding_type", VStr "SOURCE_MISMATCH") ] ]);
         ("resolution_status", VStr "ESCALATED");
         ("agent_log", VArr [ VObj [ ("agent", VStr "DEEP_AUDITOR");
                                     ("action", VStr "ANALYSIS");
                                     ("severity", VStr "INFO") ] ]) ].

(** The error body of a failing back end. *)
Definition server_error : value :=
  VObj [ ("detail", VStr "Internal Server Error") ].

(** A body whose [findings] is not a list. *)
Definition malformed : value :=
  VObj [ ("findings_count", VNum 1%Q); ("findings", VStr "unavailable") ].

(** An extraction whose vendor name cannot be printed: the object has
    a property [toString] that is not a function. *)
Definition extracted_unprintable : value :=
  VObj [ ("status", VStr "success");
         ("extraction", VObj [ ("vendor_name", VObj [ ("toString", VNum 1%Q) ]) ]) ].

(** A response that says success and carries no extraction. *)
Definition extracted_nothing : value :=
  VObj [ ("status", VStr "success") ].

(** An extraction whose vendor name is the empty string. *)
Definition extracted_blank : value :=
  VObj [ ("status", VStr "success");
         ("extraction", VObj [ ("vendor_name", VStr EmptyString);
                               ("country_of_origin", VStr "Bangladesh") ]) ].

(** A world without storage, in which every extraction is answered by
    the body [extract] and the orchestration request by [start]; the
    40 ms timer fires [ms / 40] times during a delay of [ms] and [k]
    times during any other suspension. *)
Definition world_with (extract : value) (start : settled Response) (k : nat)
  : World :=
  {| answer := fun n r =>
       match r return resp r with
       | DateNow => 1767225600000 + Z.of_nat n
       | NowISO => "2026-01-01T00:00:00.000Z"
       | MathRandom => (1 # 2)%Q
       | Atob _ => Some EmptyString
       | SupabaseEnv => false
       | Delay _ => tt
       | StorageUpload _ _ => Rejected
       | FetchExtract _ =>
           Resolved {| http_status := 200; json_body := Some extract;
                       text_body := None |}
       | FetchStart _ => start
       | ReadBody => tt
       | InsertAuditLog _ _ => Rejected
       end;
     ticks := fun _ r =>
       match r with
       | Delay ms => Z.to_nat (ms / 40)
       | _ => k
       end |}.

Definition world : settled Response -> nat -> World := world_with extracted.

(** The world [w] with the logging collaborator configured. *)
Definition configured (w : World) : World :=
  {| answer := fun n r =>
       match r return resp r with
       | SupabaseEnv => true
       | r' => answer w n r'
       end;
     ticks := ticks w |}.

Definition answered (status : Z) (body : value) : settled Response :=
  Resolved {| http_status := status; json_body := Some body; text_body := None |}.

(** The state a finished, successful session leaves behind. *)
Definition after_success : State :=
  final (@submit runtime [invoice] (world (answered 200 audited) 3) 0 initial_state).

End Scenario.


(* ================================================================== *)
(** * Theorems                                                          *)
(* ================================================================== *)

(** ** Risk tiers *)

Lemma Qle_bool_false (a b : Q) : Qle_bool a b = false <-> (b < a)%Q.
Proof.
  split; intro Hab.
  - apply Qnot_le_lt. intro Hle. apply Qle_bool_iff in Hle. congruence.
  - destruct (Qle_bool a b) eqn:E; [|reflexivity].
    apply Qle_bool_iff in E. lra.
Qed.

(** C7. Every risk score in [0, 1] falls in exactly one band, each band
    closed at its lower edge: below 0.01 compliant, from 0.01
    informational, from 0.5 warning, from 0.8 critical; 0.82 is critical
    and 0.49 informational. *)
Theorem C7_risk_tier_bands (r : Q) :
  (0 <= r <= 1)%Q ->
  ((r < 1 # 100)%Q -> getColor r = tier_compliant) /\
  ((1 # 100 <= r < 5 # 10)%Q -> getColor r = tier_informational) /\
  ((5 # 10 <= r < 8 # 10)%Q -> getColor r = tier_warning) /\
  ((8 # 10 <= r)%Q -> getColor r = tier_critical) /\
  getColor (82 # 100) = tier_critical /\
  getColor (49 # 100) = tier_informational.
Proof.
  intros _. unfold getColor.
  repeat split; try reflexivity; intros Hr;
    repeat match goal with
      | |- context [Qle_bool ?a r] =>
          let E := fresh "E" in
          destruct (Qle_bool a r) eqn:E;
          [apply Qle_bool_iff in E | apply Qle_bool_false in E]
      end;
    try reflexivity; lra.
Qed.

Lemma C7_risk_tier_bands_witness :
  getColor (1 # 2) = tier_warning.
Proof.
  assert (Hr : (0 <= 1 # 2 <= 1)%Q) by (split; discriminate).
  destruct (C7_risk_tier_bands (1 # 2) Hr) as (_ & _ & Hw & _).
  apply Hw. split; [discriminate | reflexivity].
Defined.

(** ** Decimal rendering *)

Lemma length_append (a b : string) :
  String.length (a ++ b) = (String.length a + String.length b)%nat.
Proof. induction a as [|c a IH]; simpl; [reflexivity | now rewrite IH]. Qed.

Lemma append_assoc (a b c : string) : (a ++ b) ++ c = a ++ b ++ c.
Proof. induction a as [|x a IH]; simpl; [reflexivity | now rewrite IH]. Qed.

Lemma substring_append_l (a b : string) :
  substring 0 (String.length a) (a ++ b) = a.
Proof.
  induction a as [|c a IH]; simpl.
  - destruct b; reflexivity.
  - now rewrite IH.
Qed.

Lemma substring_append_r (a b : string) :
  substring (String.length a) (String.length b) (a ++ b) = b.
Proof.
  induction a as [|c a IH]; simpl; [|exact IH].
  induction b as [|c b IHb]; simpl; [reflexivity | now rewrite IHb].
Qed.

Lemma digits_fuel_nonempty (f : nat) (n : Z) :
  (1 <= String.length (Js.digits_fuel (S f) n))%nat.
Proof.
  simpl. destruct (n <? 10); [simpl; lia|].
  rewrite length_append. simpl. lia.
Qed.

Lemma digits_fuel_enough (f g : nat) :
  forall n, 0 < n -> n < 10 ^ Z.of_nat f -> n < 10 ^ Z.of_nat g ->
  Js.digits_fuel f n = Js.digits_fuel g n.
Proof.
  revert g. induction f as [|f IH]; intros g n Hn Hf Hg.
  - simpl in Hf. lia.
  - destruct g as [|g]; [simpl in Hg; lia|].
    simpl. destruct (Z.ltb_spec n 10) as [|Hge]; [reflexivity|].
    f_equal. rewrite !Nat2Z.inj_succ, !Z.pow_succ_r in * by lia.
    apply IH.
    + apply Z.div_str_pos; lia.
    + apply Z.div_lt_upper_bound; lia.
    + apply Z.div_lt_upper_bound; lia.
Qed.

Lemma lt_pow10_log2 (n : Z) : 0 < n -> n < 10 ^ Z.of_nat (S (Z.to_nat (Z.log2 n))).
Proof.
  intros Hn.
  rewrite Nat2Z.inj_succ, Z2Nat.id by apply Z.log2_nonneg.
  pose proof (Z.log2_spec n Hn) as [_ Hlt].
  eapply Z.lt_le_trans; [exact Hlt|].
  apply Z.pow_le_mono_l. pose proof (Z.log2_nonneg n). lia.
Qed.

Lemma digits_step (n : Z) :
  10 <= n -> Js.digits n = Js.digits (n / 10) ++ Js.digit (n mod 10).
Proof.
  intros Hn. unfold Js.digits at 1. simpl Js.digits_fuel.
  destruct (Z.ltb_spec n 10); [lia|]. f_equal.
  assert (H10 : 0 < n / 10) by (apply Z.div_str_pos; lia).
  apply digits_fuel_enough.
  - lia.
  - pose proof (lt_pow10_log2 n ltac:(lia)) as Hlt.
    rewrite Nat2Z.inj_succ, Z.pow_succ_r in Hlt by lia.
    apply Z.div_lt_upper_bound; lia.
  - apply lt_pow10_log2. exact H10.
Qed.

Lemma digits_nonempty (n : Z) : (1 <= String.length (Js.digits n))%nat.
Proof. apply digits_fuel_nonempty. Qed.

Lemma length_digit (d : Z) : String.length (Js.digit d) = 1%nat.
Proof. reflexivity. Qed.

(** ** Doubles *)

Lemma Qabs_pos_eq (x : Q) : (0 < x)%Q -> Qabs x = x.
Proof.
  destruct x as [n d]. unfold Qlt. simpl. intros Hn.
  rewrite Z.mul_1_r in Hn. destruct n; try lia; reflexivity.
Qed.

Lemma round_even_near (y : Q) :
  (inject_Z (Js.round_even y) - (1 # 2) <= y)%Q /\
  (y <= inject_Z (Js.round_even y) + (1 # 2))%Q.
Proof.
  unfold Js.round_even.
  pose proof (Qfloor_le y) as Hl. pose proof (Qlt_floor y) as Hu.
  rewrite inject_Z_plus in Hu. change (inject_Z 1) with 1%Q in Hu.
  destruct (y - inject_Z (Qfloor y) ?= 1 # 2)%Q eqn:E.
  - apply Qeq_alt in E.
    destruct (Z.even (Qfloor y)); rewrite ?inject_Z_plus;
      change (inject_Z 1) with 1%Q; split; lra.
  - apply Qlt_alt in E. split; lra.
  - apply Qgt_alt in E. rewrite inject_Z_plus.
    change (inject_Z 1) with 1%Q. split; lra.
Qed.

Lemma pow2_pos (e : Z) : (0 < Js.pow2 e)%Q.
Proof. apply Qpower_0_lt. reflexivity. Qed.

Lemma pow2_add (a b : Z) : (Js.pow2 (a + b) == Js.pow2 a * Js.pow2 b)%Q.
Proof. apply Qpower_plus. discriminate. Qed.

Lemma pow2_nonneg (e : Z) : 0 <= e -> (Js.pow2 e == inject_Z (2 ^ e))%Q.
Proof. intros He. unfold Js.pow2. rewrite Zpower_Qpower by exact He. reflexivity. Qed.

(** The binade of a positive number lies below it. *)
Lemma binade_le (x : Q) : (0 < x)%Q -> (Js.pow2 (Js.binade x) <= x)%Q.
Proof.
  intros Hx. unfold Js.binade.
  set (la := Z.log2 (Qnum x)). set (lb := Z.log2 (Z.pos (Qden x))).
  destruct (Qle_bool (Js.pow2 (la - lb)) x) eqn:E; [apply Qle_bool_iff; exact E|].
  assert (Hn : 0 < Qnum x).
  { destruct x as [n d]. unfold Qlt in Hx. simpl in *. lia. }
  pose proof (Z.log2_spec (Qnum x) Hn) as [Ha _].
  pose proof (Z.log2_spec (Z.pos (Qden x)) ltac:(lia)) as [_ Hb].
  fold la in Ha. fold lb in Hb.
  pose proof (Z.log2_nonneg (Qnum x)) as Hla. fold la in Hla.
  pose proof (Z.log2_nonneg (Z.pos (Qden x))) as Hlb. fold lb in Hlb.
  replace (la - lb - 1) with (la + - (lb + 1)) by lia.
  rewrite pow2_add. unfold Js.pow2 at 2. rewrite Qpower_opp.
  fold (Js.pow2 (lb + 1)). rewrite !pow2_nonneg by lia.
  assert (Hp : 0 < 2 ^ (lb + 1)) by (apply Z.pow_pos_nonneg; lia).
  assert (Hq : 0 < 2 ^ la) by (apply Z.pow_pos_nonneg; lia).
  destruct (2 ^ (lb + 1)) as [|p|p] eqn:Ep; try lia.
  destruct x as [n d]. simpl in *.
  unfold Qle, Qmult, Qinv, inject_Z. simpl.
  nia.
Qed.

Lemma binade_above_one (x : Q) : (1 <= x)%Q -> -1 <= Js.binade x.
Proof.
  intros Hx. unfold Js.binade.
  assert (Hle : Z.pos (Qden x) <= Qnum x).
  { destruct x as [n d]. unfold Qle in Hx. simpl in *. lia. }
  pose proof (Z.log2_le_mono _ _ Hle).
  destruct (Qle_bool _ x); lia.
Qed.

(** The double nearest to a number from 1 on is within [2^-53] of it,
    relatively. *)
Lemma round_double_near (x : Q) :
  (1 <= x)%Q ->
  (Qabs (Js.round_double x - x) <= x * (1 # 2 ^ 53))%Q.
Proof.
  intros Hx. unfold Js.round_double.
  assert (Hpos : (0 < x)%Q) by lra.
  assert (E0 : Qeq_bool x 0 = false).
  { destruct (Qeq_bool x 0) eqn:E; [|reflexivity].
    apply Qeq_bool_iff in E. lra. }
  assert (E1 : Js.Qlt_bool x 0 = false).
  { unfold Js.Qlt_bool. apply negb_false_iff, Qle_bool_iff. lra. }
  rewrite E0, E1, (Qabs_pos_eq x Hpos).
  pose proof (binade_above_one x Hx) as Hb.
  rewrite Z.max_l by lia.
  pose proof (binade_le x Hpos) as Hle.
  replace (Js.binade x - 52) with (Js.binade x + - 52) by lia.
  set (P := Js.pow2 (Js.binade x + - 52)).
  set (B := Js.pow2 (Js.binade x)) in *.
  set (c := (1 # 2 ^ 52)%Q).
  assert (Hc : (0 < c)%Q) by reflexivity.
  assert (HP : (P == B * c)%Q).
  { unfold P, B. rewrite pow2_add. reflexivity. }
  assert (HP0 : (0 < P)%Q) by apply pow2_pos.
  destruct (round_even_near (x / P)) as [Hl Hu].
  set (m := inject_Z (Js.round_even (x / P))) in *.
  assert (Hy : (x == x / P * P)%Q) by (field; lra).
  set (y := (x / P)%Q) in *.
  assert (H53 : ((1 # 2 ^ 53) == c * (1 # 2))%Q) by reflexivity.
  assert (H1 : ((m - y) * P <= (1 # 2) * P)%Q)
    by (apply Qmult_le_compat_r; lra).
  assert (H2 : (- (1 # 2) * P <= (m - y) * P)%Q)
    by (apply Qmult_le_compat_r; lra).
  assert (H3 : (B * c <= x * c)%Q) by (apply Qmult_le_compat_r; lra).
  rewrite H53. apply Qabs_Qle_condition. split; lra.
Qed.

Section FormatFacts.
Context `{JsRuntime}.

(** [toFixed] on a non-negative value below [10^21]. *)
Lemma toFixed_small (x : Q) (f : nat) :
  (0 <= x)%Q -> (x < inject_Z (10 ^ 21))%Q ->
  Js.toFixed x f =
  let m := Js.digits (Qfloor (x * inject_Z (10 ^ Z.of_nat f) + (1 # 2))) in
  match f with
  | O => m
  | S _ =>
      let m := if (String.length m <=? f)%nat
               then Js.zeros (S f - String.length m) ++ m else m in
      substring 0 (String.length m - f) m ++ "."
        ++ substring (String.length m - f) f m
  end.
Proof.
  intros H0 Hlt. unfold Js.toFixed.
  assert (Hs : Js.Qlt_bool x 0 = false).
  { unfold Js.Qlt_bool. apply negb_false_iff, Qle_bool_iff. exact H0. }
  rewrite Hs.
  assert (Ha : (Qabs x == x)%Q) by (apply Qabs_pos; exact H0).
  assert (Hb : Qle_bool (inject_Z (10 ^ 21)) (Qabs x) = false).
  { apply Qle_bool_false. rewrite Ha. exact Hlt. }
  rewrite Hb.
  assert (Hn : Qfloor (Qabs x * inject_Z (10 ^ Z.of_nat f) + (1 # 2))
               = Qfloor (x * inject_Z (10 ^ Z.of_nat f) + (1 # 2))).
  { apply Qfloor_comp. rewrite Ha. reflexivity. }
  rewrite Hn. destruct f; reflexivity.
Qed.

(** No digit after the point: the nearest integer, the larger on a tie. *)
Lemma toFixed_whole (q : Q) :
  (0 <= q)%Q -> (q < inject_Z (10 ^ 21))%Q ->
  Js.toFixed q 0 = Js.digits (Qfloor (q + (1 # 2))).
Proof.
  intros H0 Hlt. rewrite toFixed_small by assumption. cbv zeta.
  f_equal. apply Qfloor_comp. change (inject_Z (10 ^ Z.of_nat 0)) with 1%Q. ring.
Qed.

(** One digit after the point: the nearest number of tenths. *)
Lemma toFixed_tenths (q : Q) :
  (0 <= q)%Q -> (q < inject_Z (10 ^ 21))%Q ->
  let t := Qfloor (q * 10 + (1 # 2)) in
  10 <= t ->
  Js.toFixed q 1 = Js.digits (t / 10) ++ "." ++ Js.digit (t mod 10).
Proof.
  intros H0 Hlt t Ht. rewrite toFixed_small by assumption. cbv zeta.
  change (inject_Z (10 ^ Z.of_nat 1)) with 10%Q. fold t.
  rewrite (digits_step t Ht).
  set (a := Js.digits (t / 10)). set (b := Js.digit (t mod 10)).
  assert (Hla : (1 <= String.length a)%nat) by apply digits_nonempty.
  assert (Hlen : String.length (a ++ b) = S (String.length a)).
  { rewrite length_append. unfold b. rewrite length_digit. lia. }
  assert (Hleb : (String.length (a ++ b) <=? 1)%nat = false)
    by (apply Nat.leb_gt; lia).
  rewrite Hleb, Hlen.
  replace (S (String.length a) - 1)%nat with (String.length a) by lia.
  rewrite substring_append_l.
  change 1%nat with (String.length b) at 1.
  rewrite substring_append_r. reflexivity.
Qed.

Lemma number_to_string_integer (z : Z) :
  Z.abs z < 10 ^ 21 -> Js.number_to_string (inject_Z z) = Js.int_to_string z.
Proof.
  intros Hz. unfold Js.number_to_string.
  assert (Hi : Js.is_integer (inject_Z z) = true).
  { unfold Js.is_integer. apply Qeq_bool_iff. rewrite Qfloor_Z. reflexivity. }
  assert (Hb : Js.Qlt_bool (Qabs (inject_Z z)) (inject_Z (10 ^ 21)) = true).
  { unfold Js.Qlt_bool. apply negb_true_iff, Qle_bool_false.
    change (Qabs (inject_Z z)) with (inject_Z (Z.abs z)).
    rewrite <- Zlt_Qlt. exact Hz. }
  rewrite Hi, Hb, Qfloor_Z. reflexivity.
Qed.

(** The double quotient of an amount by a unit of at most a million,
    when the amount is at least the unit and below [10^21]. *)
Lemma fdiv_near (n : Q) (d : Z) :
  0 < d -> (inject_Z d <= n)%Q -> (n < inject_Z (10 ^ 21))%Q ->
  let x := (n / inject_Z d)%Q in
  let q := Js.fdiv n (inject_Z d) in
  (1 <= x)%Q /\ (x < inject_Z (10 ^ 21))%Q /\
  (x - x * (1 # 9007199254740992) <= q)%Q /\
  (q <= x + x * (1 # 9007199254740992))%Q.
Proof.
  intros Hd Hn Hlt x q.
  assert (Hd' : (0 < inject_Z d)%Q) by (rewrite (Zlt_Qlt 0 d) in Hd; exact Hd).
  assert (Hx : (1 <= x)%Q).
  { unfold x. apply Qle_shift_div_l; [exact Hd'|]. lra. }
  assert (Hx' : (x < inject_Z (10 ^ 21))%Q).
  { unfold x. apply Qlt_shift_div_r; [exact Hd'|].
    assert (H1 : (1 <= inject_Z d)%Q).
    { change 1%Q with (inject_Z 1). rewrite <- Zle_Qle. lia. }
    assert (H21 : (0 < inject_Z (10 ^ 21))%Q) by reflexivity.
    assert (H2 : (inject_Z (10 ^ 21) * 1 <= inject_Z (10 ^ 21) * inject_Z d)%Q).
    { rewrite !(Qmult_comm (inject_Z (10 ^ 21))).
      apply Qmult_le_compat_r; lra. }
    lra. }
  pose proof (round_double_near x Hx) as He.
  change (2 ^ 53)%positive with 9007199254740992%positive in He.
  apply Qabs_Qle_condition in He.
  assert (Hq : q = Js.round_double x) by reflexivity.
  rewrite Hq. repeat split; lra.
Qed.

Lemma Qfloor_ge (z : Z) (y : Q) : (inject_Z z <= y)%Q -> z <= Qfloor y.
Proof.
  intros Hy. rewrite <- (Qfloor_Z z). apply Qfloor_resp_le. exact Hy.
Qed.

Lemma Qfloor_lt (z : Z) (y : Q) : (y < inject_Z z)%Q -> Qfloor y < z.
Proof.
  intros Hy. pose proof (Qfloor_le y) as Hl.
  rewrite Zlt_Qlt. lra.
Qed.

End FormatFacts.

(** ** Runs of composed processes *)

Lemma before_nil {A} (r : Result A) : before [] [] r = r.
Proof. destruct r; reflexivity. Qed.

Lemma before_before {A} (l1 l2 : list event) (q1 q2 : list Q) (r : Result A) :
  before l1 q1 (before l2 q2 r) = before (l1 ++ l2)%list (q1 ++ q2)%list r.
Proof. unfold before; simpl. now rewrite !app_assoc. Qed.

Lemma then_run_before {A B} l q (r : Result A) (k : A -> nat -> State -> Result B) :
  then_run (before l q r) k = before l q (then_run r k).
Proof.
  unfold then_run; simpl. destruct (returned r).
  - now rewrite before_before.
  - reflexivity.
Qed.

Lemma catch_run_before {A} l q (r : Result A) h :
  catch_run (before l q r) h = before l q (catch_run r h).
Proof.
  unfold catch_run; simpl. destruct (returned r).
  - reflexivity.
  - now rewrite before_before.
Qed.

Lemma run_bind {A B} (p : Proc A) (f : A -> Proc B) w n s :
  run (bind p f) w n s
  = then_run (run p w n s) (fun a n' s' => run (f a) w n' s').
Proof.
  revert n s. induction p as [a|e|g k IH|r k IH|t k IH]; intros n s; simpl.
  - unfold then_run; simpl. now rewrite before_nil.
  - reflexivity.
  - apply IH.
  - now rewrite IH, then_run_before.
  - destruct (start t w n s) as [[[s1 p1] n1] evs].
    now rewrite IH, then_run_before.
Qed.

Lemma run_try_catch {A} (p : Proc A) (h : exn -> Proc A) w n s :
  run (try_catch p h) w n s
  = catch_run (run p w n s) (fun e n' s' => run (h e) w n' s').
Proof.
  revert n s. induction p as [a|e|g k IH|r k IH|t k IH]; intros n s; simpl.
  - reflexivity.
  - unfold catch_run; simpl. now rewrite before_nil.
  - apply IH.
  - now rewrite IH, catch_run_before.
  - destruct (start t w n s) as [[[s1 p1] n1] evs].
    now rewrite IH, catch_run_before.
Qed.

(** ** The start of a detached task

    [logAuditEvent] reads the configuration and, when there is one, the
    clock, and is then suspended at its insert request; without a
    configuration it warns and returns. *)
Lemma start_task t w n :
  exists (g : State -> State) (p : Proc unit) (n' : nat) (evs : list event),
    (forall s, start t w n s = (g s, p, n', evs)) /\
    ((forall s, g s = s) \/ exists msg, forall s, g s = warn msg s) /\
    Forall env_call evs.
Proof.
  destruct t as [ev]. unfold start, task_body, logAuditEvent, getSupabase.
  cbn [prefix bind try_catch call act is_async].
  destruct (answer w n SupabaseEnv); cbn [prefix bind try_catch negb is_async].
  - eexists (fun s => s), _, _, _. split; [intros s; reflexivity|].
    split; [left; reflexivity|]. repeat constructor.
  - eexists (warn _), _, _, _. split; [intros s; reflexivity|].
    split; [right; eexists; reflexivity|]. repeat constructor.
Qed.

(** ** Footprints *)

Section ShapeFacts.
Variable PA : (State -> State) -> Prop.
Variable PL : Entry -> Prop.
Variable PC : req -> Prop.

Lemma shape_bind {A B} PT (p : Proc A) (f : A -> Proc B) :
  Shape PA PL PC PT p -> (forall a, Shape PA PL PC PT (f a)) ->
  Shape PA PL PC PT (bind p f).
Proof.
  intros Hp Hf. induction Hp; simpl; try (constructor; auto); auto.
Qed.

Lemma shape_try_catch {A} PT PT' (p : Proc A) (h : exn -> Proc A) :
  Shape PA PL PC PT p -> (forall e, Shape PA PL PC PT' (h e)) ->
  Shape PA PL PC PT' (try_catch p h).
Proof.
  intros Hp Hh. induction Hp; simpl; try (constructor; auto); auto.
Qed.

Lemma shape_throws {A} (PT PT' : exn -> Prop) (p : Proc A) :
  (forall e, PT e -> PT' e) ->
  Shape PA PL PC PT p -> Shape PA PL PC PT' p.
Proof. intros Hm Hp. induction Hp; constructor; auto. Qed.
End ShapeFacts.

Lemma shape_mono {A} (PA PA' : (State -> State) -> Prop) (PL PL' : Entry -> Prop)
      (PC PC' : req -> Prop) (PT PT' : exn -> Prop) (p : Proc A) :
  (forall f, PA f -> PA' f) -> (forall e, PL e -> PL' e) ->
  (forall r, PC r -> PC' r) -> (forall e, PT e -> PT' e) ->
  Shape PA PL PC PT p -> Shape PA' PL' PC' PT' p.
Proof. intros HA HL HC HT Hp. induction Hp; constructor; auto. Qed.

(** What a footprint says of a run. *)
Section ShapeRuns.
Variable PA : (State -> State) -> Prop.
Variable PL : Entry -> Prop.
Variable PC : req -> Prop.
Variable PT : exn -> Prop.

Lemma run_ticks_inv (R : State -> State -> Prop) :
  (forall s, R s s) -> (forall a b c, R a b -> R b c -> R a c) ->
  (forall s, R s (tick s)) ->
  forall m s, R s (fst (run_ticks m s)).
Proof.
  intros Hrefl Htrans Htick. induction m as [|m IH]; intros s; simpl; [apply Hrefl|].
  destruct (progressRef s); [|apply Hrefl].
  specialize (IH (tick s)). destruct (run_ticks m (tick s)) as [s' qs]; simpl in *.
  eapply Htrans; [apply Htick | exact IH].
Qed.

(** A preorder that every step respects relates the first state to the
    last. *)
Lemma shape_inv {A} (R : State -> State -> Prop) (p : Proc A) :
  (forall s, R s s) -> (forall a b c, R a b -> R b c -> R a c) ->
  (forall f, PA f -> forall s, R s (f s)) ->
  (forall e s, PL e -> R s (append_log e s)) ->
  (forall msg s, R s (warn msg s)) ->
  (forall s, R s (tick s)) ->
  Shape PA PL PC PT p ->
  forall w n s, R s (final (run p w n s)).
Proof.
  intros Hrefl Htrans HA HL Hwarn Htick Hp.
  induction Hp as [a|e He|e k He Hk IH|f k Hf Hk IH|r k Hr Hk IH];
    intros w n s; simpl.
  - apply Hrefl.
  - apply Hrefl.
  - destruct (start_task (LogAuditEvent (persist_of e)) w n)
      as (g & p & n' & evs & Hst & Hg & _).
    rewrite Hst. cbn [before final].
    eapply Htrans; [apply HL; exact He|].
    eapply Htrans; [|apply IH].
    destruct Hg as [Hg|[msg Hg]]; rewrite Hg; [apply Hrefl | apply Hwarn].
  - eapply Htrans; [apply HA; exact Hf | apply IH].
  - eapply Htrans; [|apply IH].
    destruct (is_async r); simpl; [|apply Hrefl].
    apply run_ticks_inv; assumption.
Qed.

Lemma shape_calls {A} (p : Proc A) :
  PC SupabaseEnv -> PC NowISO ->
  Shape PA PL PC PT p ->
  forall w n s,
    Forall (fun ev => match ev with EvCall r _ => PC r | _ => True end)
           (events (run p w n s)).
Proof.
  intros Henv Hnow Hp.
  induction Hp as [a|e He|e k He Hk IH|f k Hf Hk IH|r k Hr Hk IH];
    intros w n s; simpl.
  - constructor.
  - constructor.
  - destruct (start_task (LogAuditEvent (persist_of e)) w n)
      as (g & p & n' & evs & Hst & _ & Hevs).
    rewrite Hst. cbn [before events app].
    constructor; [exact I|]. apply Forall_app. split; [|apply IH].
    eapply Forall_impl; [|exact Hevs].
    intros [[] a|t]; simpl; intros Hc; try contradiction; assumption.
  - apply IH.
  - constructor; [assumption | apply IH].
Qed.

Lemma shape_returns {A} (p : Proc A) :
  Shape PA PL PC PT p ->
  forall w n s,
    match returned (run p w n s) with
    | inl _ => True
    | inr e => PT e
    end.
Proof.
  intros Hp.
  induction Hp as [a|e He|e k He Hk IH|f k Hf Hk IH|r k Hr Hk IH];
    intros w n s; simpl; auto; try apply IH.
  destruct (start (LogAuditEvent (persist_of e)) w n (append_log e s))
    as [[[s1 p1] n1] evs].
  apply IH.
Qed.
End ShapeRuns.

(** ** The footprint of each part of the handler *)

Lemma lookup_obj_set (key : string) (v : value) m :
  Js.lookup key (Js.obj_set key v m) = v.
Proof.
  induction m as [|[k x] m IHm]; cbn [Js.lookup Js.obj_set].
  - now rewrite String.eqb_refl.
  - destruct (String.eqb key k) eqn:E; cbn [Js.lookup].
    + now rewrite String.eqb_refl.
    + now rewrite E.
Qed.

Section LogFootprint.
Context `{JsRuntime}.
Variable ok : nat -> Prop.
Variable pub : value -> Prop.
Variable id : string.
Hypothesis id_truthy : Js.truthy (VStr id) = true.

Lemma shape_pushLog PC PT (e : Entry) :
  tagged id e -> Shape (Update ok pub) (tagged id) PC PT (pushLog e).
Proof.
  intros He. unfold pushLog. rewrite He, id_truthy.
  apply Sh_Push; [exact He | apply Sh_Ret].
Qed.

Lemma shape_log (PC : req -> Prop) PT a b c d :
  PC NowISO -> Shape (Update ok pub) (tagged id) PC PT (log a b c d id).
Proof.
  intros Hc. unfold log, mkLog. simpl.
  apply Sh_Call; [exact Hc|]. intros ts.
  apply shape_pushLog. reflexivity.
Qed.
End LogFootprint.

Ltac shape_leaf :=
  first
    [ apply Sh_Ret
    | apply Sh_Throw; exact I
    | apply Sh_Call; [exact I | intros]
    | apply Sh_Act; [constructor; auto with arith |] ].

(** The parts that have a footprint lemma of their own. *)
Ltac shape_part := fail.

Ltac shape_step :=
  match goal with
  | |- Shape _ _ _ _ _ => shape_part
  | |- Shape _ _ _ _ (log _ _ _ _ _) => apply shape_log; [assumption | exact I]
  | |- Shape _ _ _ _ (pushLog _) => apply shape_pushLog; [assumption | reflexivity]
  | |- Shape _ _ _ _ (bind _ _) => apply shape_bind; [|intros]
  | |- Shape _ _ _ _ (call _) => unfold call
  | |- Shape _ _ _ _ (act _) => unfold act
  | |- Shape _ _ _ _ (updateStage _ _) => unfold updateStage
  | |- Shape _ _ _ _ (animateProgress _ _ _) => unfold animateProgress
  | |- Shape _ _ _ _ (prop _ _) => unfold prop
  | |- Shape _ _ _ _ (interpolate _) => unfold interpolate
  | |- Shape _ _ _ _ (extraction_exception _ _ _ _) => unfold extraction_exception
  | |- Shape _ _ _ _ (try_catch _ _) =>
      apply (shape_try_catch _ _ _ any_throw); [|intros]
  | |- Shape _ _ _ _ (of_option ?o _) => destruct o; unfold of_option
  | |- Shape _ _ _ _ (await ?r _) => destruct r; unfold await
  | |- Shape _ _ _ _ (if ?b then _ else _) => destruct b
  | |- Shape _ _ _ _ (match ?x with _ => _ end) => destruct x
  | |- Shape _ _ _ _ _ => shape_leaf
  end.

Ltac shape := repeat shape_step.

Section Footprints.
Context `{JsRuntime}.
Variable ok : nat -> Prop.
Variable pub : value -> Prop.
Variable id : string.
Hypothesis id_truthy : Js.truthy (VStr id) = true.

Lemma shape_upload_one PT file :
  Shape (Update ok pub) (tagged id) ingest_call PT (upload_one id file).
Proof.
  unfold upload_one.
  apply (shape_try_catch _ _ _ any_throw); [|intros e; shape].
  unfold uploadAuditDocument, getSupabase. shape.
Qed.

Lemma shape_upload_loop PT files :
  Shape (Update ok pub) (tagged id) ingest_call PT (upload_loop id files).
Proof.
  induction files as [|f files IH]; cbn [upload_loop].
  - apply Sh_Ret.
  - apply shape_bind; [apply shape_upload_one | intros; exact IH].
Qed.

Lemma shape_extract_one PT file ed all :
  Shape (Update ok pub) (tagged id) extraction_call PT (extract_one id file ed all).
Proof.
  unfold extract_one.
  apply (shape_try_catch _ _ _ any_throw); [|intros e; shape].
  unfold extraction_details. shape.
Qed.

Lemma shape_extract_loop PT files :
  forall ed all,
    Shape (Update ok pub) (tagged id) extraction_call PT (extract_loop id files ed all).
Proof.
  induction files as [|f files IH]; intros ed all; cbn [extract_loop].
  - apply Sh_Ret.
  - apply shape_bind; [apply shape_extract_one | intros; apply IH].
Qed.

Lemma tagged_obj_set m : tagged id (Js.obj_set "audit_id" (VStr id) m).
Proof. apply lookup_obj_set. Qed.

Lemma shape_replay PT logs :
  Shape (Update ok pub) (tagged id) audit_call PT (replay id logs).
Proof.
  induction logs as [|l logs IH]; cbn [replay].
  - apply Sh_Ret.
  - apply shape_bind; [|intros].
    + apply shape_pushLog; [assumption | apply tagged_obj_set].
    + apply shape_bind; [shape | intros; exact IH].
Qed.

Ltac shape_part ::=
  match goal with
  | |- Shape _ _ _ _ (upload_loop _ _) => apply shape_upload_loop; assumption
  | |- Shape _ _ _ _ (extract_loop _ _ _ _) => apply shape_extract_loop; assumption
  | |- Shape _ _ _ _ (replay _ _) => apply shape_replay; assumption
  end.

Lemma shape_apply_result v :
  (forall i, (2 <= i)%nat -> ok i) -> (forall x, pub x) ->
  Shape (Update ok pub) (tagged id) audit_call any_throw (apply_result v).
Proof. intros Hok Hpub. unfold apply_result. shape. Qed.

Lemma shape_respond captured res :
  (forall i, (2 <= i)%nat -> ok i) -> (forall x, pub x) ->
  Shape (Update ok pub) (tagged id) audit_call any_throw (respond captured id res).
Proof.
  intros Hok Hpub. unfold respond. shape.
Qed.

Lemma shape_on_failure PC PT e :
  (forall i, (2 <= i)%nat -> ok i) ->
  Shape (Update ok pub) (tagged id) PC PT (on_failure e).
Proof. intros Hok. unfold on_failure. shape. Qed.

(** The orchestration step once its request is sent. *)
Lemma shape_respond_or_fail captured PT (r : settled Response) :
  (forall i, (2 <= i)%nat -> ok i) -> (forall x, pub x) ->
  Shape (Update ok pub) (tagged id) audit_call PT
    (try_catch (res <- await r NetworkError;; respond captured id res) on_failure).
Proof.
  intros Hok Hpub. apply (shape_try_catch _ _ _ any_throw).
  - apply shape_bind; [shape | intros; apply shape_respond; assumption].
  - intros e. apply shape_on_failure; assumption.
Qed.

Lemma shape_orchestration captured files PT ed all :
  (forall i, (2 <= i)%nat -> ok i) -> (forall x, pub x) ->
  Shape (Update ok pub) (tagged id) (fun _ => True) PT
    (orchestration captured id files ed all).
Proof.
  intros Hok Hpub. unfold orchestration. cbn [bind call try_catch].
  apply Sh_Call; [exact I|]. intros random.
  apply Sh_Call; [exact I|]. intros r.
  eapply shape_mono; [| | | |apply (shape_respond_or_fail captured PT r Hok Hpub)]; auto.
Qed.

Ltac shape_part ::=
  match goal with
  | |- Shape _ _ _ _ (upload_loop _ _) => apply shape_upload_loop; assumption
  | |- Shape _ _ _ _ (extract_loop _ _ _ _) => apply shape_extract_loop; assumption
  | |- Shape _ _ _ _ (replay _ _) => apply shape_replay; assumption
  | |- Shape _ _ _ _ (orchestration _ _ _ _ _) =>
      apply shape_orchestration; assumption
  end.

Lemma shape_ingest captured files PT :
  ok 0%nat ->
  Shape (Update ok pub) (tagged id) ingest_call PT (ingest captured id files).
Proof. intros Hok. unfold ingest. shape. Qed.

Lemma shape_extraction captured files PT :
  ok 1%nat ->
  Shape (Update ok pub) (tagged id) extraction_call PT (extraction captured id files).
Proof. intros Hok. unfold extraction. shape. Qed.

Lemma shape_audit captured files PT ed all :
  (forall i, (2 <= i)%nat -> ok i) -> (forall x, pub x) ->
  Shape (Update ok pub) (tagged id) (fun _ => True) PT (audit captured id files ed all).
Proof.
  intros Hok Hpub. unfold audit. shape.
Qed.

Lemma shape_stages captured files PT :
  (forall i, ok i) -> (forall x, pub x) ->
  Shape (Update ok pub) (tagged id) (fun _ => True) PT (stages captured id files).
Proof.
  intros Hok Hpub. unfold stages.
  apply shape_bind; [|intros _; apply shape_bind; [|intros x]].
  - eapply shape_mono; [| | | |apply (shape_ingest captured files PT)]; auto.
  - eapply shape_mono; [| | | |apply (shape_extraction captured files PT)]; auto.
  - apply shape_audit; auto.
Qed.
End Footprints.

(** ** What the state updates leave alone *)

Lemma length_set_status_at i st l :
  List.length (set_status_at i st l) = List.length l.
Proof.
  revert i. induction l as [|x l IH]; intros [|i]; simpl; auto.
Qed.

Lemma status_set_status_at_other i j st l :
  i <> j ->
  nth_error (map status (set_status_at i st l)) j = nth_error (map status l) j.
Proof.
  revert i j. induction l as [|x l IH]; intros [|i] [|j] Hij; simpl; auto.
  congruence.
Qed.

Lemma status_set_status_at_same i st l :
  (i < List.length l)%nat ->
  nth_error (map status (set_status_at i st l)) i = Some st.
Proof.
  revert i. induction l as [|x l IH]; intros [|i] Hi; simpl in *; try lia; auto.
  apply IH. lia.
Qed.

Lemma tick_agentLog s : agentLog (tick s) = agentLog s.
Proof.
  unfold tick. destruct (progressRef s); [|reflexivity].
  destruct (_ || _); reflexivity.
Qed.

Lemma tick_pipelineStages s : pipelineStages (tick s) = pipelineStages s.
Proof.
  unfold tick. destruct (progressRef s); [|reflexivity].
  destruct (_ || _); reflexivity.
Qed.

Lemma tick_auditResult s : auditResult (tick s) = auditResult s.
Proof.
  unfold tick. destruct (progressRef s); [|reflexivity].
  destruct (_ || _); reflexivity.
Qed.

Lemma run_ticks_agentLog m s : agentLog (fst (run_ticks m s)) = agentLog s.
Proof.
  apply (run_ticks_inv (fun a b => agentLog b = agentLog a)); try congruence.
  apply tick_agentLog.
Qed.

Lemma fired_app l1 l2 : fired (l1 ++ l2) = (fired l1 ++ fired l2)%list.
Proof. apply flat_map_app. Qed.

Lemma fired_env_calls evs : Forall env_call evs -> fired evs = [].
Proof.
  induction 1 as [|ev evs Hev _ IH]; [reflexivity|].
  destruct ev as [r a|t]; [exact IH | contradiction].
Qed.

Section UpdateFacts.
Context `{JsRuntime}.

Lemma update_agentLog ok pub f :
  Update ok pub f -> forall s, agentLog (f s) = agentLog s.
Proof.
  intros [] s; try reflexivity.
  unfold update_topology. destruct (map_nodes _ _); reflexivity.
Qed.

Lemma update_stages_length ok pub f :
  Update ok pub f ->
  forall s, List.length (pipelineStages (f s)) = List.length (pipelineStages s).
Proof.
  intros [] s; try reflexivity.
  - apply length_set_status_at.
  - unfold update_topology. destruct (map_nodes _ _); reflexivity.
Qed.

Lemma update_status_outside ok pub f j :
  Update ok pub f -> ~ ok j ->
  forall s, nth_error (stage_statuses (f s)) j = nth_error (stage_statuses s) j.
Proof.
  intros [] Hj s; try reflexivity.
  - apply status_set_status_at_other. congruence.
  - unfold update_topology. destruct (map_nodes _ _); reflexivity.
Qed.

Lemma update_commutes_id ok pub f x :
  Update ok pub f ->
  forall s, f (setCurrentAuditId x s) = setCurrentAuditId x (f s).
Proof.
  intros [] s; try reflexivity.
  unfold update_topology. simpl. destruct (map_nodes _ _); reflexivity.
Qed.
End UpdateFacts.

Section UpdateFactsMore.
Context `{JsRuntime}.

Lemma update_auditResult ok f :
  Update ok never f -> forall s, auditResult (f s) = auditResult s.
Proof.
  intros [] s; try reflexivity.
  - unfold never in *. contradiction.
  - unfold update_topology. destruct (map_nodes _ _); reflexivity.
Qed.
End UpdateFactsMore.

Lemma tick_commutes_id x s :
  tick (setCurrentAuditId x s) = setCurrentAuditId x (tick s).
Proof.
  unfold tick. simpl. destruct (progressRef s); [|reflexivity].
  destruct (_ || _); reflexivity.
Qed.

Lemma run_ticks_commutes_id x m s :
  run_ticks m (setCurrentAuditId x s)
  = (setCurrentAuditId x (fst (run_ticks m s)), snd (run_ticks m s)).
Proof.
  revert s. induction m as [|m IH]; intros s; simpl; [reflexivity|].
  destruct (progressRef s); [|reflexivity].
  rewrite tick_commutes_id, IH.
  destruct (run_ticks m (tick s)); reflexivity.
Qed.

(** ** The log and the persistence calls of a run *)

Section ShapeLog.
Variable PA : (State -> State) -> Prop.
Variable PL : Entry -> Prop.
Variable PC : req -> Prop.
Variable PT : exn -> Prop.
Hypothesis PA_log : forall f, PA f -> forall s, agentLog (f s) = agentLog s.

Lemma shape_logs {A} (p : Proc A) :
  Shape PA PL PC PT p ->
  forall w n s,
  exists L,
    agentLog (final (run p w n s)) = (agentLog s ++ L)%list /\
    fired (events (run p w n s))
    = map (fun e => LogAuditEvent (persist_of e)) L /\
    Forall PL L.
Proof.
  intros Hp.
  induction Hp as [a|e He|e k He Hk IH|f k Hf Hk IH|r k Hr Hk IH];
    intros w n s; simpl.
  - exists []. now rewrite app_nil_r.
  - exists []. now rewrite app_nil_r.
  - destruct (start_task (LogAuditEvent (persist_of e)) w n)
      as (g & p & n' & evs & Hst & Hg & Hevs).
    rewrite Hst. cbn [before final events app].
    destruct (IH w n' (g (append_log e s))) as (L & H1 & H2 & H3).
    assert (Hlog : agentLog (g (append_log e s)) = (agentLog s ++ [e])%list).
    { destruct Hg as [Hg|[msg Hg]]; rewrite Hg; reflexivity. }
    exists (e :: L). repeat split.
    + rewrite H1, Hlog. now rewrite <- app_assoc.
    + change (fired (EvFire (LogAuditEvent (persist_of e)) :: evs ++ events (run k w n' (g (append_log e s)))))
        with (LogAuditEvent (persist_of e)
                :: fired (evs ++ events (run k w n' (g (append_log e s))))).
      rewrite fired_app, (fired_env_calls evs Hevs), H2. reflexivity.
    + constructor; assumption.
  - destruct (IH w n (f s)) as (L & H1 & H2 & H3).
    exists L. rewrite H1, (PA_log f Hf). auto.
  - set (st := if is_async r then run_ticks (ticks w n r) s else (s, [])).
    destruct (IH (answer w n r) w (S n) (fst st)) as (L & H1 & H2 & H3).
    assert (Hs1 : agentLog (fst st) = agentLog s).
    { unfold st. destruct (is_async r); simpl; [|auto].
      apply run_ticks_agentLog. }
    exists L. rewrite H1, Hs1. repeat split; auto.
Qed.
End ShapeLog.

(** ** Runs from states that differ in the session id *)

Section ShapeCommute.
Variable PA : (State -> State) -> Prop.
Variable PL : Entry -> Prop.
Variable PC : req -> Prop.
Variable PT : exn -> Prop.
Variable x : string.
Hypothesis PA_commutes :
  forall f, PA f -> forall s, f (setCurrentAuditId x s) = setCurrentAuditId x (f s).

Lemma shape_commutes_id {A} (p : Proc A) :
  Shape PA PL PC PT p ->
  forall w n s,
    run p w n (setCurrentAuditId x s)
    = with_final (setCurrentAuditId x) (run p w n s).
Proof.
  intros Hp.
  induction Hp as [a|e He|e k He Hk IH|f k Hf Hk IH|r k Hr Hk IH];
    intros w n s; simpl.
  - reflexivity.
  - reflexivity.
  - change (append_log e (setCurrentAuditId x s))
      with (setCurrentAuditId x (append_log e s)).
    destruct (start_task (LogAuditEvent (persist_of e)) w n)
      as (g & p & n' & evs & Hst & Hg & _).
    rewrite !Hst.
    assert (Hc : g (setCurrentAuditId x (append_log e s))
                 = setCurrentAuditId x (g (append_log e s))).
    { destruct Hg as [Hg|[msg Hg]]; rewrite !Hg; reflexivity. }
    now rewrite Hc, IH.
  - now rewrite (PA_commutes f Hf), IH.
  - destruct (is_async r); simpl.
    + rewrite run_ticks_commutes_id. simpl. now rewrite IH.
    + now rewrite IH.
Qed.
End ShapeCommute.

(** ** Requests in a trace *)

Lemma extractions_app l1 l2 :
  extractions (l1 ++ l2) = (extractions l1 ++ extractions l2)%list.
Proof. apply flat_map_app. Qed.

Lemma extract_requests_app l1 l2 :
  extract_requests (l1 ++ l2) = (extract_requests l1 ++ extract_requests l2)%list.
Proof. apply flat_map_app. Qed.

Lemma start_bodies_app l1 l2 :
  start_bodies (l1 ++ l2) = (start_bodies l1 ++ start_bodies l2)%list.
Proof. apply flat_map_app. Qed.

Lemma no_extract_calls (PC : req -> Prop) evs :
  (forall f, ~ PC (FetchExtract f)) ->
  Forall (fun ev => match ev with EvCall r _ => PC r | _ => True end) evs ->
  extractions evs = [] /\ extract_requests evs = [].
Proof.
  intros Hno Hall. induction Hall as [|ev evs Hev _ IH]; [split; reflexivity|].
  destruct IH as [IH1 IH2].
  destruct ev as [r a|t]; simpl; [|auto].
  destruct r; auto. exfalso. exact (Hno _ Hev).
Qed.

Lemma no_start_calls (PC : req -> Prop) evs :
  (forall b, ~ PC (FetchStart b)) ->
  Forall (fun ev => match ev with EvCall r _ => PC r | _ => True end) evs ->
  start_bodies evs = [].
Proof.
  intros Hno Hall. induction Hall as [|ev evs Hev _ IH]; [reflexivity|].
  destruct ev as [r a|t]; simpl; [|auto].
  destruct r; auto. exfalso. exact (Hno _ Hev).
Qed.

Lemma start_answers_app l1 l2 :
  start_answers (l1 ++ l2) = (start_answers l1 ++ start_answers l2)%list.
Proof. apply flat_map_app. Qed.

Lemma no_start_answers (PC : req -> Prop) evs :
  (forall b, ~ PC (FetchStart b)) ->
  Forall (fun ev => match ev with EvCall r _ => PC r | _ => True end) evs ->
  start_answers evs = [].
Proof.
  intros Hno Hall. induction Hall as [|ev evs Hev _ IH]; [reflexivity|].
  destruct ev as [r a|t]; simpl; [|auto].
  destruct r; auto. exfalso. exact (Hno _ Hev).
Qed.

(** The requests of a starting persistence call are none of these. *)
Lemma env_calls_trace evs :
  Forall env_call evs ->
  extractions evs = [] /\ extract_requests evs = [] /\
  start_bodies evs = [] /\ start_answers evs = [].
Proof.
  induction 1 as [|ev evs Hev _ IH]; [repeat split|].
  destruct ev as [[] a|t]; try contradiction; exact IH.
Qed.

Section ExtractionLoop.
Context `{JsRuntime}.
Variable id : string.
Hypothesis id_truthy : Js.truthy (VStr id) = true.

(** One entry is logged: the clock is read, the entry appended, and the
    persistence call started. *)
Lemma run_log a b c d w n s :
  let e := [ ("audit_id", VStr id); ("timestamp", VStr (answer w n NowISO));
             ("agent", VStr a); ("action", VStr b); ("details", VStr c);
             ("severity", VStr d) ] in
  exists (g : State -> State) (n' : nat) (evs : list event),
    run (log a b c d id) w n s
    = Build_Result (g (append_log e s)) (inl tt)
        (EvCall NowISO (answer w n NowISO)
           :: EvFire (LogAuditEvent (persist_of e)) :: evs)
        [] n' /\
    ((forall x, g x = x) \/ exists msg, forall x, g x = warn msg x) /\
    Forall env_call evs.
Proof.
  intros e. unfold log, mkLog, pushLog.
  cbn [bind call run Js.lookup String.eqb Ascii.eqb Bool.eqb is_async].
  rewrite id_truthy. fold e.
  destruct (start_task (LogAuditEvent (persist_of e)) w (S n))
    as (g & p & n' & evs & Hst & Hg & Hevs).
  exists g, n', evs. cbn [run]. rewrite Hst.
  split; [|split; assumption].
  unfold before. cbn [final returned events shown asked app].
  rewrite app_nil_r. reflexivity.
Qed.

Lemma get_total v k a :
  Js.get v k = Some a -> forall k', exists b, Js.get v k' = Some b.
Proof. destruct v; simpl; intros Hg k'; try discriminate; eauto. Qed.

Lemma run_log_ret {A} (v : A) a b c d w n s :
  let e := [ ("audit_id", VStr id); ("timestamp", VStr (answer w n NowISO));
             ("agent", VStr a); ("action", VStr b); ("details", VStr c);
             ("severity", VStr d) ] in
  exists (g : State -> State) (n' : nat) (evs : list event),
    run (log a b c d id;; Ret v) w n s
    = Build_Result (g (append_log e s)) (inl v)
        (EvCall NowISO (answer w n NowISO)
           :: EvFire (LogAuditEvent (persist_of e)) :: evs)
        [] n' /\
    ((forall x, g x = x) \/ exists msg, forall x, g x = warn msg x) /\
    Forall env_call evs.
Proof.
  intros e. destruct (run_log a b c d w n s) as (g & n' & evs & Hr & Hg & Hevs).
  exists g, n', evs. split; [|split; assumption].
  rewrite run_bind, Hr. unfold then_run, before.
  cbn [run final returned events shown asked]. now rewrite !app_nil_r.
Qed.

Lemma agentLog_started (g : State -> State) x :
  ((forall x, g x = x) \/ exists msg, forall x, g x = warn msg x) ->
  agentLog (g x) = agentLog x.
Proof. intros [Hg|[msg Hg]]; rewrite Hg; reflexivity. Qed.

Ltac exec :=
  cbn [run bind try_catch call act of_option await prop interpolate fst snd
       is_async before final returned events shown asked app].

(** The entry that ends an iteration. *)
Ltac logged :=
  rewrite ?run_try_catch;
  match goal with
  | |- context [run (bind (log ?a ?b ?c ?d id) (fun _ => Ret ?v)) ?w ?n ?s] =>
      let g := fresh "g" in
      let n' := fresh "n'" in
      let evs := fresh "evs" in
      let Hrun := fresh "Hrun" in
      let Hg := fresh "Hg" in
      let Hevs := fresh "Hevs" in
      destruct (run_log_ret v a b c d w n s) as (g & n' & evs & Hrun & Hg & Hevs);
      cbv zeta in Hrun; rewrite Hrun; clear Hrun;
      destruct (env_calls_trace evs Hevs) as (? & ? & _);
      unfold catch_run; exec;
      eexists; split;
      [ rewrite (agentLog_started g _ Hg); unfold append_log;
        cbn [agentLog setAgentLog warn setConsole];
        rewrite ?run_ticks_agentLog; reflexivity
      | split; [reflexivity | split; [reflexivity|]] ]
  end.

Ltac trace :=
  unfold extractions, extract_requests, extraction_of in *;
  cbn [flat_map app];
  repeat match goal with
    | H : _ = _ |- _ => rewrite H
    end.

Lemma extract_one_spec f ed all w n s :
  extracted_one id f ed all s (run (extract_one id f ed all) w n s).
Proof.
  unfold extracted_one, extract_one, extraction_details, extraction_exception, prop,
    interpolate.
  exec.
  destruct (answer w n (Atob (base64 f))) as [bytes|]; exec.
  2:{ logged. right. repeat split; trace; auto. }
  destruct (answer w (S n) (FetchExtract f)) as [|res] eqn:Eres; exec.
  { logged. right. repeat split; trace; auto. }
  destruct (ok res) eqn:Eok; exec.
  - destruct (json_body res) as [data|] eqn:Ebody; exec.
    2:{ logged. right. repeat split; trace; auto. }
    destruct (Js.get data "status") as [st|] eqn:Est; exec.
    2:{ logged. right. repeat split; trace; auto. }
    destruct (get_total _ _ _ Est "extraction") as [x Hx].
    destruct (get_total _ _ _ Est "tokens") as [tk Htk].
    destruct (get_total _ _ _ Est "error") as [er Her].
    destruct (Js.is_str st "success") eqn:Esucc.
    + rewrite Hx; exec.
      destruct (Js.to_string (Js.or_else (Js.opt_get x "vendor_name") (VStr "?")));
        exec.
      2:{ logged. left. exists x. repeat split; trace; auto. }
      destruct (Js.to_string (Js.or_else (Js.opt_get x "country_of_origin") (VStr "?")));
        exec.
      2:{ logged. left. exists x. repeat split; trace; auto. }
      rewrite Htk; exec.
      destruct (Js.to_string (Js.or_else (Js.opt_get tk "input") (VNum 0))); exec.
      2:{ logged. left. exists x. repeat split; trace; auto. }
      destruct (Js.to_string (Js.or_else (Js.opt_get tk "output") (VNum 0))); exec.
      2:{ logged. left. exists x. repeat split; trace; auto. }
      logged. left. exists x. repeat split; trace; auto.
    + rewrite Her; exec.
      destruct (Js.to_string (Js.or_else er (VStr "Unknown error"))); exec;
        logged; right; repeat split; trace; auto.
  - destruct (text_body res) as [errorText|]; exec;
      logged; right; repeat split; trace; auto.
Qed.

Lemma last_cons_default {A} (x : A) l d d' : last (x :: l) d = last (x :: l) d'.
Proof.
  revert x. induction l as [|y l IH]; intros x; [reflexivity|].
  change (last (y :: l) d = last (y :: l) d'). apply IH.
Qed.

Lemma last_app {A} (l1 l2 : list A) d : last (l1 ++ l2) d = last l2 (last l1 d).
Proof.
  revert d. induction l1 as [|x l1 IH]; intros d; [reflexivity|].
  destruct l1 as [|y l1].
  - destruct l2 as [|z l2]; [reflexivity|].
    change (last (z :: l2) d = last (z :: l2) x). apply last_cons_default.
  - change (last ((y :: l1) ++ l2) d = last l2 (last (y :: l1) d)).
    apply IH.
Qed.

Lemma subsequence_app {A} (a b c d : list A) :
  subsequence a b -> subsequence c d -> subsequence (a ++ c) (b ++ d).
Proof.
  intros Hab Hcd. induction Hab; simpl; [exact Hcd | |]; constructor; assumption.
Qed.

(** What the extraction loop does. *)
Lemma extract_loop_spec files :
  forall ed all w n s,
    let r := run (extract_loop id files ed all) w n s in
    returned r
    = inl (last (extractions (events r)) ed, (all ++ extractions (events r))%list) /\
    subsequence (extract_requests (events r)) files /\
    exists L,
      agentLog (final r) = (agentLog s ++ L)%list /\
      List.length L = List.length files /\
      Forall (tagged id) L.
Proof.
  induction files as [|f files IH]; intros ed all w n s; cbn [extract_loop].
  - simpl. rewrite !app_nil_r. repeat split; [constructor|].
    exists []. rewrite app_nil_r. repeat split; constructor.
  - rewrite run_bind.
    destruct (extract_one_spec f ed all w n s) as (e & Hlog & Htag & _ & Hcase).
    set (r1 := run (extract_one id f ed all) w n s) in *.
    assert (Hone :
      exists ed1 all1,
        returned r1 = inl (ed1, all1) /\
        ed1 = last (extractions (events r1)) ed /\
        all1 = (all ++ extractions (events r1))%list /\
        subsequence (extract_requests (events r1)) [f]).
    { destruct Hcase as [(x & Hr & Hx & Hq & _) | (Hr & Hx & Hq & _)].
      - exists x, (all ++ [x])%list. rewrite Hx, Hq.
        repeat split; auto. apply sub_take, sub_nil.
      - exists ed, all. rewrite Hx, app_nil_r.
        repeat split; auto.
        destruct Hq as [-> | ->]; [apply sub_take | apply sub_skip]; apply sub_nil. }
    destruct Hone as (ed1 & all1 & Hr & Hed & Hall & Hsub).
    unfold then_run. rewrite Hr. cbn [fst snd].
    specialize (IH ed1 all1 w (asked r1) (final r1)).
    cbv zeta in IH. destruct IH as (IHr & IHsub & L & IHlog & IHlen & IHtag).
    cbn [returned events final before].
    rewrite extractions_app, extract_requests_app, last_app, app_assoc, <- Hed, <- Hall.
    split; [exact IHr|]. split.
    { change (f :: files) with ([f] ++ files)%list.
      apply subsequence_app; assumption. }
    exists (e :: L). rewrite IHlog, Hlog, <- app_assoc. split; [reflexivity|].
    split; [simpl; now rewrite IHlen|].
    constructor; assumption.
Qed.
End ExtractionLoop.

(** ** The stages of one session *)

Lemma run_ticks_pipelineStages m s :
  pipelineStages (fst (run_ticks m s)) = pipelineStages s.
Proof.
  apply (run_ticks_inv (fun a b => pipelineStages b = pipelineStages a)); try congruence.
  apply tick_pipelineStages.
Qed.

Lemma tick_currentAuditId s : currentAuditId (tick s) = currentAuditId s.
Proof.
  unfold tick. destruct (progressRef s); [|reflexivity].
  destruct (_ || _); reflexivity.
Qed.

Lemma returned_unit (r : Result unit) (PT : exn -> Prop) :
  match returned r with inl _ => True | inr e => PT e end ->
  (forall e, ~ PT e) -> returned r = inl tt.
Proof.
  destruct (returned r) as [[]|e]; [reflexivity|]. intros Hp Hno. destruct (Hno e Hp).
Qed.

Section Stages.
Context `{JsRuntime}.
Variable captured : Q.
Variable id : string.
Variable files : list UploadedFile.
Hypothesis id_truthy : Js.truthy (VStr id) = true.

Lemma update_currentAuditId ok pub f :
  Update ok pub f -> forall s, currentAuditId (f s) = currentAuditId s.
Proof.
  intros [] s; try reflexivity.
  unfold update_topology. destruct (map_nodes _ _); reflexivity.
Qed.

(** No stage writes the session id, and none changes the number of
    stage entries. *)
Lemma shape_keeps {A} (p : Proc A) ok pub PC PT w n s :
  Shape (Update ok pub) (tagged id) PC PT p ->
  currentAuditId (final (run p w n s)) = currentAuditId s /\
  List.length (pipelineStages (final (run p w n s)))
  = List.length (pipelineStages s).
Proof.
  intros Hp.
  apply (shape_inv (Update ok pub) (tagged id) PC PT
           (fun a b => currentAuditId b = currentAuditId a /\
                       List.length (pipelineStages b) = List.length (pipelineStages a)));
    try assumption.
  - auto.
  - intros a b c [H1 H2] [H3 H4]. split; congruence.
  - intros f Hf s'. split; [eapply update_currentAuditId | eapply update_stages_length]; eassumption.
  - intros e s' _. split; reflexivity.
  - intros msg s'. split; reflexivity.
  - intros s'. split; [apply tick_currentAuditId | now rewrite tick_pipelineStages].
Qed.

Lemma shape_keeps_status {A} (p : Proc A) ok pub PC PT j w n s :
  Shape (Update ok pub) (tagged id) PC PT p -> ~ ok j ->
  nth_error (stage_statuses (final (run p w n s))) j
  = nth_error (stage_statuses s) j.
Proof.
  intros Hp Hj.
  apply (shape_inv (Update ok pub) (tagged id) PC PT
           (fun a b => nth_error (stage_statuses b) j = nth_error (stage_statuses a) j));
    try assumption.
  - auto.
  - intros a b c H1 H2. congruence.
  - intros f Hf s'. eapply update_status_outside; eassumption.
  - intros e s' _. reflexivity.
  - intros msg s'. reflexivity.
  - intros s'. unfold stage_statuses. now rewrite tick_pipelineStages.
Qed.

Lemma run_ingest w n s :
  let r := run (ingest captured id files) w n s in
  returned r = inl tt /\
  extractions (events r) = [] /\ extract_requests (events r) = [] /\
  start_bodies (events r) = [].
Proof.
  intros r.
  pose proof (shape_ingest (fun i => i = 0%nat) never id id_truthy captured files no_throw eq_refl)
    as Hs.
  split.
  { eapply returned_unit; [apply (shape_returns _ _ _ _ _ Hs) | auto]. }
  pose proof (shape_calls _ _ _ _ _ I I Hs w n s) as Hc.
  destruct (no_extract_calls ingest_call _ (fun f Hf => Hf) Hc) as [H1 H2].
  repeat split; try assumption.
  exact (no_start_calls ingest_call _ (fun f Hf => Hf) Hc).
Qed.

Lemma run_end_extraction w n s :
  (2 <= List.length (pipelineStages s))%nat ->
  let r := run (end_extraction captured) w n s in
  returned r = inl tt /\ events r = [EvCall (Delay 300) tt] /\
  nth_error (stage_statuses (final r)) 1 = Some complete.
Proof.
  intros Hlen r. subst r. unfold end_extraction.
  cbn [run bind updateStage animateProgress act call is_async before final
       returned events fst snd app].
  destruct (answer w n (Delay 300)).
  repeat split.
  unfold stage_statuses. rewrite run_ticks_pipelineStages.
  cbn [pipelineStages animate setProgressRef set_stage setPipelineStages].
  apply status_set_status_at_same. lia.
Qed.

Lemma run_extraction w n s :
  (2 <= List.length (pipelineStages s))%nat ->
  let r := run (extraction captured id files) w n s in
  returned r
  = inl (last (extractions (events r)) VNull, extractions (events r)) /\
  subsequence (extract_requests (events r)) files /\
  start_bodies (events r) = [] /\
  nth_error (stage_statuses (final r)) 1 = Some complete.
Proof.
  intros Hlen r.
  pose proof (shape_extraction (fun i => i = 1%nat) never id id_truthy captured files
                no_throw eq_refl) as Hs.
  assert (Hstart : start_bodies (events r) = []).
  { exact (no_start_calls extraction_call _ (fun f Hf => Hf)
             (shape_calls _ _ _ _ _ I I Hs w n s)). }
  subst r. unfold extraction in *. rewrite run_bind in *.
  set (rb := run (begin_extraction captured id files) w n s) in *.
  assert (Hb : Shape (Update (fun i => i = 1%nat) never) (tagged id) ingest_call no_throw
                 (begin_extraction captured id files)).
  { unfold begin_extraction. shape. }
  assert (Hrb : returned rb = inl tt).
  { eapply returned_unit; [apply (shape_returns _ _ _ _ _ Hb) | auto]. }
  destruct (no_extract_calls ingest_call _ (fun f Hf => Hf)
              (shape_calls _ _ _ _ _ I I Hb w n s)) as [Hb1 Hb2].
  fold rb in Hb1, Hb2.
  destruct (shape_keeps _ _ _ _ _ w n s Hb) as [_ Hblen]. fold rb in Hblen.
  unfold then_run in *. rewrite Hrb in *. rewrite run_bind in *.
  pose proof (extract_loop_spec id id_truthy files VNull [] w (asked rb) (final rb))
    as Hl.
  cbv zeta in Hl.
  set (rl := run (extract_loop id files VNull []) w (asked rb) (final rb)) in *.
  destruct Hl as (Hrl & Hsub & _).
  destruct (shape_keeps _ _ _ _ _ w (asked rb) (final rb)
              (shape_extract_loop (fun i => i = 1%nat) never id id_truthy no_throw files VNull []))
    as [_ Hllen].
  fold rl in Hllen.
  unfold then_run in *. rewrite Hrl in *. rewrite run_bind in *.
  destruct (run_end_extraction w (asked rl) (final rl) ltac:(lia)) as (Hre & Hev & Hst).
  set (re := run (end_extraction captured) w (asked rl) (final rl)) in *.
  unfold then_run in *. rewrite Hre in *.
  cbn [run before returned events final app] in *.
  rewrite Hev in *. cbn [app] in *.
  rewrite !extractions_app, !extract_requests_app, Hb1, Hb2.
  cbn [extractions extract_requests flat_map app]. rewrite !app_nil_r.
  repeat split; assumption.
Qed.

Lemma run_begin_audit w n s :
  run (begin_audit captured) w n s
  = Build_Result (final (run (begin_audit captured) w n s)) (inl tt) [] [] n.
Proof. reflexivity. Qed.

Lemma run_orchestration ed all w n s :
  let r := run (orchestration captured id files ed all) w n s in
  start_bodies (events r) = [start_body id files (answer w n MathRandom) ed all] /\
  extractions (events r) = [] /\ extract_requests (events r) = [].
Proof.
  intros r. subst r. unfold orchestration.
  cbn [run bind try_catch call is_async before events fst snd app].
  set (a := answer w (S n) (FetchStart _)).
  set (s' := fst (run_ticks _ s)).
  pose proof (shape_calls _ _ _ _ _ I I
                (shape_respond_or_fail (fun i => (2 <= i)%nat) (fun _ => True)
                   id id_truthy captured no_throw a (fun i Hi => Hi) (fun _ => I))
                w (S (S n)) s') as Hc.
  destruct (no_extract_calls audit_call _ (fun f Hf => Hf) Hc) as [H1 H2].
  pose proof (no_start_calls audit_call _ (fun f Hf => Hf) Hc) as H3.
  unfold start_bodies, extractions, extract_requests in *.
  cbn [flat_map app] in *.
  rewrite H1, H2, H3. repeat split.
Qed.

Lemma run_audit ed all w n s :
  let r := run (audit captured id files ed all) w n s in
  returned r = inl tt /\
  start_bodies (events r) = [start_body id files (answer w n MathRandom) ed all] /\
  extractions (events r) = [] /\ extract_requests (events r) = [] /\
  nth_error (stage_statuses (final r)) 1 = nth_error (stage_statuses s) 1.
Proof.
  intros r.
  pose proof (shape_audit (fun i => (2 <= i)%nat) (fun _ => True) id id_truthy
                captured files no_throw ed all (fun i Hi => Hi) (fun _ => I)) as Hs.
  split.
  { eapply returned_unit; [apply (shape_returns _ _ _ _ _ Hs) | auto]. }
  assert (Hst : nth_error (stage_statuses (final r)) 1 = nth_error (stage_statuses s) 1).
  { apply (shape_keeps_status _ _ _ _ _ 1%nat w n s Hs). lia. }
  assert (Hev : events r
                = events (run (orchestration captured id files ed all) w n
                            (final (run (begin_audit captured) w n s)))).
  { unfold r, audit. rewrite run_bind, run_begin_audit.
    unfold then_run. cbn [returned events shown asked final].
    rewrite run_bind. unfold then_run.
    destruct (returned (run (orchestration captured id files ed all) w n _)) as [[]|e];
      cbn [run act before events app]; now rewrite ?app_nil_r. }
  rewrite Hev.
  destruct (run_orchestration ed all w n (final (run (begin_audit captured) w n s)))
    as (H1 & H2 & H3).
  auto.
Qed.

(** Before the orchestration step nothing is published. *)
Lemma shape_keeps_auditResult {A} (p : Proc A) ok PC PT w n s :
  Shape (Update ok never) (tagged id) PC PT p ->
  auditResult (final (run p w n s)) = auditResult s.
Proof.
  intros Hp.
  apply (shape_inv (Update ok never) (tagged id) PC PT
           (fun a b => auditResult b = auditResult a)); try assumption.
  - auto.
  - intros a b c H1 H2. congruence.
  - intros f Hf s'. eapply update_auditResult; eassumption.
  - intros e s' _. reflexivity.
  - intros msg s'. reflexivity.
  - intros s'. apply tick_auditResult.
Qed.

Lemma run_ticks_frame m s :
  let s' := fst (run_ticks m s) in
  auditResult s' = auditResult s /\ pipelineStages s' = pipelineStages s.
Proof.
  apply (run_ticks_inv (fun a b => auditResult b = auditResult a /\
                                   pipelineStages b = pipelineStages a)).
  - auto.
  - intros a b c [H1 H2] [H3 H4]. split; congruence.
  - intros s'. split; [apply tick_auditResult | apply tick_pipelineStages].
Qed.

(** The orchestration step when the service is unreachable. *)
Lemma run_audit_unreachable ed all w n s :
  let r := run (audit captured id files ed all) w n s in
  exists a,
    start_answers (events r) = [a] /\
    (unreachable a ->
     auditorState (final r) = ERROR /\ shieldState (final r) = ERROR /\
     actionState (final r) = ERROR /\
     isExtracting (final r) = false /\
     auditResult (final r) = auditResult s /\
     pipelineStages (final r)
     = set_status_at 4 error
         (set_status_at 3 error
            (set_status_at 2 error
               (set_status_at 2 active (pipelineStages s))))).
Proof.
  intros r.
  exists (answer w (S n) (FetchStart (start_body id files (answer w n MathRandom) ed all))).
  split.
  - assert (Hev : events r
                  = events (run (orchestration captured id files ed all) w n
                              (final (run (begin_audit captured) w n s)))).
    { unfold r, audit. rewrite run_bind, run_begin_audit.
      unfold then_run. cbn [returned events shown asked final].
      rewrite run_bind. unfold then_run.
      destruct (returned (run (orchestration captured id files ed all) w n _)) as [[]|e];
        cbn [run act before events app]; now rewrite ?app_nil_r. }
    rewrite Hev. unfold orchestration.
    cbn [run bind try_catch call is_async before events fst snd app].
    set (a := answer w (S n) (FetchStart _)).
    set (s' := fst (run_ticks _ _)).
    pose proof (shape_calls _ _ _ _ _ I I
                  (shape_respond_or_fail (fun i => (2 <= i)%nat) (fun _ => True)
                     id id_truthy captured no_throw a (fun i Hi => Hi) (fun _ => I))
                  w (S (S n)) s') as Hc.
    pose proof (no_start_answers audit_call _ (fun f Hf => Hf) Hc) as H3.
    unfold start_answers in *. cbn [flat_map app]. now rewrite H3.
  - subst r. unfold audit, begin_audit, orchestration, respond, on_failure.
    cbn [run bind try_catch call act updateStage animateProgress is_async
         before final fst snd].
    set (a := answer w (S n) (FetchStart _)).
    set (m := ticks w (S n) (FetchStart _)).
    set (s0 := animate captured 95 30000 _).
    destruct (run_ticks_frame m s0) as [Hr0 Hp0].
    destruct a as [|res]; cbn [unreachable]; intros Hu.
    + cbn [run bind try_catch await act updateStage final before].
      repeat split; try reflexivity.
      * cbn [auditResult setIsExtracting set_stage setPipelineStages
             setActionState setShieldState setAuditorState setCurrentStage warn
             setConsole]. rewrite Hr0. reflexivity.
      * cbn [pipelineStages setIsExtracting set_stage setPipelineStages
             setActionState setShieldState setAuditorState setCurrentStage warn
             setConsole]. rewrite Hp0. reflexivity.
    + cbn [run bind try_catch await call act is_async final before fst snd].
      rewrite Hu.
      cbn [run bind try_catch of_option act updateStage final before].
      set (m1 := ticks w (S (S n)) ReadBody).
      destruct (run_ticks_frame m1 (fst (run_ticks m s0))) as [Hr1 Hp1].
      repeat split; try reflexivity.
      * cbn [auditResult setIsExtracting set_stage setPipelineStages
             setActionState setShieldState setAuditorState setCurrentStage warn
             setConsole]. rewrite Hr1, Hr0. reflexivity.
      * cbn [pipelineStages setIsExtracting set_stage setPipelineStages
             setActionState setShieldState setAuditorState setCurrentStage warn
             setConsole]. rewrite Hp1, Hp0. reflexivity.
Qed.

(** The run of the three stages. *)
Lemma run_stages w n s :
  (2 <= List.length (pipelineStages s))%nat ->
  let r := run (stages captured id files) w n s in
  returned r = inl tt /\
  currentAuditId (final r) = currentAuditId s /\
  nth_error (stage_statuses (final r)) 1 = Some complete /\
  subsequence (extract_requests (events r)) files /\
  exists random,
    start_bodies (events r)
    = [start_body id files random
         (last (extractions (events r)) VNull) (extractions (events r))].
Proof.
  intros Hlen r.
  assert (Hid : currentAuditId (final r) = currentAuditId s).
  { apply (shape_keeps _ (fun _ => True) (fun _ => True) (fun _ => True) no_throw w n s).
    apply shape_stages; auto. }
  subst r. unfold stages in *. rewrite run_bind in *.
  destruct (run_ingest w n s) as (Hr1 & Hx1 & Hq1 & Hb1).
  destruct (shape_keeps _ _ _ _ _ w n s
              (shape_ingest (fun i => i = 0%nat) never id id_truthy captured files no_throw eq_refl))
    as [_ Hlen1].
  set (r1 := run (ingest captured id files) w n s) in *.
  unfold then_run in *. rewrite Hr1 in *. rewrite run_bind in *.
  destruct (run_extraction w (asked r1) (final r1) ltac:(lia)) as (Hr2 & Hq2 & Hb2 & Hst2).
  set (r2 := run (extraction captured id files) w (asked r1) (final r1)) in *.
  unfold then_run in *. rewrite Hr2 in *. cbn [fst snd] in *.
  destruct (run_audit (last (extractions (events r2)) VNull) (extractions (events r2))
              w (asked r2) (final r2)) as (Hr3 & Hb3 & Hx3 & Hq3 & Hst3).
  set (r3 := run (audit captured id files _ _) w (asked r2) (final r2)) in *.
  cbn [before returned events final] in *.
  rewrite !extractions_app, !extract_requests_app, !start_bodies_app.
  rewrite Hx1, Hq1, Hb1, Hb2, Hx3, Hq3, Hb3, Hst3, Hst2.
  cbn [app]. rewrite !app_nil_r.
  repeat split; try assumption. eexists. reflexivity.
Qed.

(** The three stages when the orchestration service is unreachable:
    the request is rejected, or its body is not JSON. *)
Lemma run_stages_unreachable w n s :
  List.length (pipelineStages s) = 5%nat ->
  auditResult s = VNull ->
  let r := run (stages captured id files) w n s in
  exists a,
    start_answers (events r) = [a] /\
    (unreachable a ->
     auditorState (final r) = ERROR /\ shieldState (final r) = ERROR /\
     actionState (final r) = ERROR /\ isExtracting (final r) = false /\
     fully_error (final r)).
Proof.
  intros Hlen Hnull r.
  subst r. unfold stages in *. rewrite run_bind in *.
  pose proof (shape_ingest (fun i => i = 0%nat) never id id_truthy captured files
                no_throw eq_refl) as Hs1.
  destruct (run_ingest w n s) as (Hr1 & _).
  destruct (shape_keeps _ _ _ _ _ w n s Hs1) as [_ Hlen1].
  pose proof (shape_keeps_auditResult _ _ _ _ w n s Hs1) as Hres1.
  pose proof (no_start_answers ingest_call _ (fun f Hf => Hf)
                (shape_calls _ _ _ _ _ I I Hs1 w n s)) as Ha1.
  set (r1 := run (ingest captured id files) w n s) in *.
  unfold then_run in *. rewrite Hr1 in *. rewrite run_bind in *.
  pose proof (shape_extraction (fun i => i = 1%nat) never id id_truthy captured files
                no_throw eq_refl) as Hs2.
  destruct (run_extraction w (asked r1) (final r1) ltac:(lia)) as (Hr2 & _).
  destruct (shape_keeps _ _ _ _ _ w (asked r1) (final r1) Hs2) as [_ Hlen2].
  pose proof (shape_keeps_auditResult _ _ _ _ w (asked r1) (final r1) Hs2) as Hres2.
  pose proof (no_start_answers extraction_call _ (fun f Hf => Hf)
                (shape_calls _ _ _ _ _ I I Hs2 w (asked r1) (final r1))) as Ha2.
  set (r2 := run (extraction captured id files) w (asked r1) (final r1)) in *.
  unfold then_run in *. rewrite Hr2 in *. cbn [fst snd] in *.
  destruct (run_audit_unreachable (last (extractions (events r2)) VNull)
              (extractions (events r2)) w (asked r2) (final r2)) as (a & Ha3 & Hun).
  set (r3 := run (audit captured id files _ _) w (asked r2) (final r2)) in *.
  exists a. cbn [before returned events final] in *.
  rewrite !start_answers_app, Ha1, Ha2, Ha3. split; [reflexivity|].
  intros Hu. destruct (Hun Hu) as (E1 & E2 & E3 & E4 & E5 & E6).
  repeat split; try assumption.
  - unfold stage_statuses. rewrite E6.
    assert (H5 : List.length (pipelineStages (final r2)) = 5%nat) by congruence.
    revert H5.
    destruct (pipelineStages (final r2)) as [|p0 [|p1 [|p2 [|p3 [|p4 [|p5 l]]]]]];
      try discriminate.
    intros _. exists (status p0), (status p1). reflexivity.
  - congruence.
Qed.
End Stages.

(** ** Sessions that end wrongly *)

Section FailingSessions.
#[local] Existing Instance Scenario.runtime.
Import Scenario.

(** C1. The orchestration service answers 500 with a JSON error body:
    the handler never looks at the status, so the session ends as a
    success, with the error body published as the audit result. *)
Theorem C1_error_status_is_published :
  let r := submit [invoice] (world (answered 500 server_error) 3) 0 initial_state in
  returned r = inl tt /\
  auditorState (final r) = SUCCESS /\
  shieldState (final r) = SUCCESS /\
  actionState (final r) = SUCCESS /\
  stage_statuses (final r) = [complete; complete; complete; complete; complete] /\
  auditResult (final r) = server_error.
Proof. vm_compute. repeat split. Qed.

(** C2. The orchestration service answers 200 with a body whose
    [findings] is not a list: the result is published, then the
    projection throws and the catch block marks the stages: the session
    ends with stages 3 to 5 in error and a published result, which is
    neither of the two terminal states. *)
Theorem C2_published_then_failed :
  let r := submit [invoice] (world (answered 200 malformed) 3) 0 initial_state in
  returned r = inl tt /\
  stage_statuses (final r) = [complete; complete; error; error; error] /\
  auditorState (final r) = ERROR /\
  shieldState (final r) = ERROR /\
  actionState (final r) = ERROR /\
  auditResult (final r) = malformed /\
  ~ fully_complete (final r) /\ ~ fully_error (final r).
Proof.
  vm_compute. repeat split; try reflexivity.
  - intros [Hs _]. discriminate Hs.
  - intros [_ Hr]. discriminate Hr.
Qed.

(** C4. An animation starts from the progress value of the render that
    created the handler, not from the value displayed: in a first
    session it starts from 0 whatever is on display, and the displayed
    progress falls from 10.5 to 1.2 when the second animation starts. *)
Theorem C4_progress_restarts :
  (forall s, (extractionProgress (tick (animate 0 30 1000 s)) == 6 # 5)%Q) /\
  let r := submit [invoice] (world (answered 200 audited) 3) 0 initial_state in
  nondecreasing (shown r) = false /\
  nth_error (map Qred (shown r)) 6 = Some (21 # 2)%Q /\
  nth_error (map Qred (shown r)) 7 = Some (6 # 5)%Q.
Proof.
  split; [intros s; reflexivity|]. vm_compute. repeat split.
Qed.

(** C6. The extraction service answers 200 with status "success" and an
    extraction whose vendor name cannot be printed.  The handler assigns
    the object and appends it to the aggregate, and then the text of the
    EXTRACTION_COMPLETE entry throws: the catch block logs the file as
    failed, at severity ERROR, but its object stays in the aggregate and
    is sent to the orchestration service, which also gets it as supplier
    name.  And when the answer says success and carries no extraction,
    the file is logged as extracted, no entry has severity ERROR, and
    the aggregate that is sent holds [undefined]. *)
Theorem C6_failed_extraction_is_kept :
  let unprintable := VObj [ ("vendor_name", VObj [ ("toString", VNum 1) ]) ] in
  let r := submit [invoice]
             (world_with extracted_unprintable (answered 200 audited) 3) 0
             initial_state in
  let r' := submit [invoice]
              (world_with extracted_nothing (answered 200 audited) 3) 0
              initial_state in
  (map (fun e => (Js.lookup "action" e, Js.lookup "severity" e))
       (agentLog (final r))
   = [ (VStr "FILE_RECEIVED", VStr "INFO");
       (VStr "SUPABASE_WARN", VStr "WARNING");
       (VStr "INGESTION_COMPLETE", VStr "INFO");
       (VStr "CLAUDE_VISION_OCR", VStr "INFO");
       (VStr "EXTRACTION_EXCEPTION", VStr "ERROR");
       (VStr "ANALYSIS", VStr "INFO") ] /\
   nth_error (stage_statuses (final r)) 1 = Some complete /\
   map extracted_data (start_bodies (events r)) = [[unprintable]] /\
   map supplier_name (start_bodies (events r))
   = [VObj [ ("toString", VNum 1) ]]) /\
  (map (fun e => (Js.lookup "action" e, Js.lookup "severity" e))
       (agentLog (final r'))
   = [ (VStr "FILE_RECEIVED", VStr "INFO");
       (VStr "SUPABASE_WARN", VStr "WARNING");
       (VStr "INGESTION_COMPLETE", VStr "INFO");
       (VStr "CLAUDE_VISION_OCR", VStr "INFO");
       (VStr "EXTRACTION_COMPLETE", VStr "INFO");
       (VStr "ANALYSIS", VStr "INFO") ] /\
   filter logged_error (agentLog (final r')) = [] /\
   map extracted_data (start_bodies (events r')) = [[VUndef]]).
Proof. vm_compute. repeat split. Qed.
End FailingSessions.

(** ** The empty submit *)

Section EmptySubmit.
Context `{JsRuntime}.

End EmptySubmit.

Section EmptySubmitExample.
#[local] Existing Instance Scenario.runtime.
Import Scenario.

End EmptySubmitExample.

(** ** The session as a whole *)

Lemma extractions_successes evs : extractions evs = map snd (successes evs).
Proof.
  induction evs as [|ev evs IH]; [reflexivity|].
  unfold extractions, successes in *. cbn [flat_map]. rewrite map_app, IH. f_equal.
  destruct ev as [r a|t]; [|reflexivity].
  destruct r; try reflexivity. cbn. destruct (extraction_of a); reflexivity.
Qed.

Lemma successes_requested evs :
  subsequence (map fst (successes evs)) (extract_requests evs).
Proof.
  induction evs as [|ev evs IH]; [constructor|].
  unfold successes, extract_requests in *. cbn [flat_map]. rewrite map_app.
  destruct ev as [r a|t]; [|exact IH].
  destruct r; try exact IH. cbn.
  destruct (extraction_of a); cbn; constructor; exact IH.
Qed.

Lemma subsequence_trans {A} (a b c : list A) :
  subsequence a b -> subsequence b c -> subsequence a c.
Proof.
  intros Hab Hbc. revert a Hab.
  induction Hbc as [|x l1 l2 Hbc IH|x l1 l2 Hbc IH]; intros a Hab.
  - exact Hab.
  - constructor. apply IH. exact Hab.
  - inversion Hab; subst.
    + apply sub_skip. apply IH. assumption.
    + apply sub_take. apply IH. assumption.
Qed.

Section Session.
Context `{JsRuntime}.

Lemma session_id_truthy now : Js.truthy (VStr ("VERITY-" ++ Js.int_to_string now)) = true.
Proof. reflexivity. Qed.

Lemma submit_cons f fs w n s :
  submit (f :: fs) w n s
  = before [EvCall DateNow (answer w n DateNow)] []
      (run (stages (extractionProgress s)
              ("VERITY-" ++ Js.int_to_string (answer w n DateNow)) (f :: fs))
         w (S n) (opened (answer w n DateNow) s)).
Proof. reflexivity. Qed.
End Session.

Section SessionClaims.
Context `{JsRuntime}.

(** What holds of the extraction stage in every world: each file gets
    one entry, and is either appended to the aggregate, with an entry
    EXTRACTION_COMPLETE or EXTRACTION_EXCEPTION, or left out of it, with
    an entry of severity ERROR; the loop goes through every file; the
    stage ends complete, and the orchestration request carries the
    extraction objects of the responses that passed the tests of the
    code. *)
Lemma extraction_stage_outcomes :
  (forall now f ed all w n s,
      let id := "VERITY-" ++ Js.int_to_string now in
      extracted_one id f ed all s (run (extract_one id f ed all) w n s)) /\
  (forall now files ed all w n s,
      let id := "VERITY-" ++ Js.int_to_string now in
      let r := run (extract_loop id files ed all) w n s in
      returned r
      = inl (last (extractions (events r)) ed, (all ++ extractions (events r))%list) /\
      exists L,
        agentLog (final r) = (agentLog s ++ L)%list /\
        List.length L = List.length files) /\
  (forall f fs w n s,
      let r := submit (f :: fs) w n s in
      returned r = inl tt /\
      nth_error (stage_statuses (final r)) 1 = Some complete /\
      exists body,
        start_bodies (events r) = [body] /\
        extracted_data body = extractions (events r)).
Proof.
  split; [|split].
  - intros now f ed all w n s id.
    apply extract_one_spec. apply session_id_truthy.
  - intros now files ed all w n s id r.
    destruct (extract_loop_spec id (session_id_truthy now) files ed all w n s)
      as (Hr & _ & L & Hlog & Hlen & _).
    split; [exact Hr|]. exists L. auto.
  - intros f fs w n s r. subst r. rewrite submit_cons.
    set (now := answer w n DateNow).
    destruct (run_stages (extractionProgress s) _ (f :: fs) (session_id_truthy now)
                w (S n) (opened now s) ltac:(simpl; lia))
      as (Hr & _ & Hst & _ & random & Hb).
    cbn [before returned final events app].
    unfold start_bodies, extractions in *. cbn [flat_map app].
    split; [exact Hr|]. split; [exact Hst|].
    eexists. split; [exact Hb | reflexivity].
Qed.


(** C5, as the code has it. Nothing in the handler compares session
    ids: when the orchestration request of a session is answered, the
    result is applied in the same way whatever the active session id
    has become.  Only the feed is scoped: the entries the session
    appends carry its own id, so the view of another session does not
    show them. *)
Theorem C5_result_applied_without_session_check
        (captured : Q) (id other : string) (a : settled Response) w n s :
  Js.truthy (VStr id) = true ->
  let k := try_catch (res <- await a NetworkError;; respond captured id res)
                     on_failure in
  run k w n (setCurrentAuditId other s)
  = with_final (setCurrentAuditId other) (run k w n s) /\
  (other <> id ->
   view (final (run k w n (setCurrentAuditId other s)))
   = view (setCurrentAuditId other s)).
Proof.
  intros Hid k.
  pose proof (shape_respond_or_fail (fun i => (2 <= i)%nat) (fun _ => True)
                id Hid captured no_throw a (fun i Hi => Hi) (fun _ => I)) as Hs.
  fold k in Hs.
  assert (Hc : run k w n (setCurrentAuditId other s)
               = with_final (setCurrentAuditId other) (run k w n s)).
  { apply (shape_commutes_id _ _ _ _ other
             (fun f Hf => update_commutes_id _ _ f other Hf) k Hs). }
  split; [exact Hc|]. intros Hne. rewrite Hc.
  destruct (shape_logs _ _ _ _ (fun f Hf => update_agentLog _ _ f Hf) k Hs w n s)
    as (L & Hlog & _ & Htag).
  unfold view. cbn [with_final final agentLog currentAuditId setCurrentAuditId].
  rewrite Hlog, filter_app.
  assert (Hnone : filter (fun e => Js.is_str (Js.lookup "audit_id" e) other) L = []).
  { clear Hlog. induction Htag as [|e L He _ IH]; [reflexivity|].
    cbn [filter]. rewrite He. cbn [Js.is_str].
    destruct (String.eqb_spec id other) as [->|_]; [congruence | exact IH]. }
  rewrite <- app_nil_r. f_equal. exact Hnone.
Qed.

(** [pushLog] of an entry without a session id only appends it. *)
Lemma pushLog_unkeyed e w n s :
  Js.truthy (Js.lookup "audit_id" e) = false ->
  advance (pushLog e) w n s = (append_log e s, Ret tt, n, []) /\
  run (pushLog e) w n s = Build_Result (append_log e s) (inl tt) [] [] n.
Proof.
  intros Hid. unfold pushLog. rewrite Hid. split; reflexivity.
Qed.

(** [pushLog] without a configuration: the call of [logAuditEvent]
    writes its warning and ends. *)
Lemma pushLog_unconfigured e w n s :
  Js.truthy (Js.lookup "audit_id" e) = true ->
  answer w n SupabaseEnv = false ->
  advance (pushLog e) w n s
  = (warn "[Verity-Nodes] Supabase not configured — missing env vars."
       (append_log e s), Ret tt, S n, [Ret tt]) /\
  run (pushLog e) w n s
  = Build_Result
      (warn "[Verity-Nodes] Supabase not configured — missing env vars."
         (append_log e s))
      (inl tt) [EvFire (LogAuditEvent (persist_of e)); EvCall SupabaseEnv false] [] (S n).
Proof.
  intros Hid Henv. unfold pushLog. rewrite Hid.
  cbn [advance run start prefix task_body logAuditEvent getSupabase bind
       try_catch call act is_async].
  rewrite Henv. 
  cbn [advance run start prefix bind try_catch call act is_async negb before
       final returned events shown asked app].
  split; reflexivity.
Qed.

(** [pushLog] with a configuration: the call of [logAuditEvent] reads
    the clock and is suspended at its insert request; whatever the
    answer, it ends then. *)
Lemma pushLog_configured e w n s :
  Js.truthy (Js.lookup "audit_id" e) = true ->
  answer w n SupabaseEnv = true ->
  exists pending k,
    pending = Call (InsertAuditLog (persist_of e) (answer w (S n) NowISO)) k /\
    advance (pushLog e) w n s = (append_log e s, Ret tt, S (S n), [pending]) /\
    run (pushLog e) w n s
    = Build_Result (append_log e s) (inl tt)
        [EvFire (LogAuditEvent (persist_of e)); EvCall SupabaseEnv true;
         EvCall NowISO (answer w (S n) NowISO)]
        [] (S (S n)) /\
    forall w' n' s',
      resume pending w' n' s'
      = (match answer w' n' (InsertAuditLog (persist_of e) (answer w (S n) NowISO)) with
         | Resolved _ => s'
         | Rejected => warn "[Supabase] Log insert failed:" s'
         end, Ret tt, S n', []).
Proof.
  intros Hid Henv. unfold pushLog. rewrite Hid.
  exists (Call (InsertAuditLog (persist_of e) (answer w (S n) NowISO))
            (fun a =>
               try_catch
                 (try_catch (await a NetworkError)
                    (fun _ => act (warn "[Supabase] Log insert failed:")))
                 (fun _ => act (warn "[Supabase] Async log failed:")))).
  eexists. split; [reflexivity|].
  cbn [advance run start prefix task_body logAuditEvent getSupabase bind
       try_catch call act is_async].
  rewrite Henv.
  cbn [advance run start prefix bind try_catch call act is_async negb before
       final returned events shown asked app].
  split; [reflexivity|]. split; [reflexivity|].
  intros w' n' s'. cbn [resume].
  set (a := answer w' n' _). clearbody a. cbn [resp] in a.
  destruct a as [|[]]; cbn [advance try_catch await act bind]; reflexivity.
Qed.

(** The events handed to [logAuditEvent] for entries of one session. *)
Lemma tagged_persist_of id L :
  Forall (tagged id) L ->
  Forall2 (fun e t =>
             t = LogAuditEvent
                   {| audit_id := VStr id;
                      agent := Js.lookup "agent" e;
                      action := Js.lookup "action" e;
                      details := Js.lookup "details" e;
                      severity := Js.lookup "severity" e |})
          L (map (fun e => LogAuditEvent (persist_of e)) L).
Proof.
  induction 1 as [|e L He _ IH]; constructor; [|exact IH].
  unfold persist_of. rewrite He. reflexivity.
Qed.

Lemma persistence_before {A} (ev : event) (rs : Result A) :
  fired [ev] = [] ->
  Forall (tagged (currentAuditId (final rs))) (agentLog (final rs)) ->
  fired (events rs)
  = map (fun e => LogAuditEvent (persist_of e)) (agentLog (final rs)) ->
  let r := before [ev] [] rs in
  Forall2 (fun e t =>
             t = LogAuditEvent
                   {| audit_id := VStr (currentAuditId (final r));
                      agent := Js.lookup "agent" e;
                      action := Js.lookup "action" e;
                      details := Js.lookup "details" e;
                      severity := Js.lookup "severity" e |})
          (agentLog (final r)) (fired (events r)).
Proof.
  intros Hev Htag Hfired r. subst r.
  cbn [before final events]. rewrite fired_app, Hev, Hfired.
  apply tagged_persist_of. exact Htag.
Qed.



(** The persistence calls of a session, entry by entry. *)
Lemma session_persistence files w n s :
  let r := submit files w n s in
  Forall2 (fun e t =>
             t = LogAuditEvent
                   {| audit_id := VStr (currentAuditId (final r));
                      agent := Js.lookup "agent" e;
                      action := Js.lookup "action" e;
                      details := Js.lookup "details" e;
                      severity := Js.lookup "severity" e |})
          (agentLog (final r)) (fired (events r)).
Proof.
  destruct files as [|f fs]; intros r; subst r.
  - assert (E1 : agentLog (final (submit [] w n s)) = []) by reflexivity.
    assert (E2 : fired (events (submit [] w n s)) = []) by reflexivity.
    rewrite E1, E2. apply Forall2_nil.
  - rewrite submit_cons. set (now := answer w n DateNow).
    set (id := "VERITY-" ++ Js.int_to_string now).
    pose proof (shape_stages (fun _ => True) (fun _ => True) id
                  (session_id_truthy now) (extractionProgress s) (f :: fs)
                  no_throw (fun _ => I) (fun _ => I)) as Hs.
    destruct (shape_logs _ _ _ _ (fun g Hg => update_agentLog _ _ g Hg) _ Hs
                w (S n) (opened now s)) as (L & Hlog & Hfired & Htag).
    destruct (shape_keeps id _ _ _ _ _ w (S n) (opened now s) Hs) as [Hid _].
    apply persistence_before; [reflexivity | |].
    + rewrite Hid, Hlog. exact Htag.
    + rewrite Hfired, Hlog. reflexivity.
Qed.


(** When the orchestration service is unreachable (the one request of the
    session is rejected, or its body is not JSON), the session ends with
    the three agents in ERROR, stages 3 to 5 marked error and no result
    published. *)
Lemma unreachable_orchestration_ends_in_error f fs w n s :
  let r := submit (f :: fs) w n s in
  exists a,
    start_answers (events r) = [a] /\
    (unreachable a ->
     auditorState (final r) = ERROR /\ shieldState (final r) = ERROR /\
     actionState (final r) = ERROR /\ isExtracting (final r) = false /\
     fully_error (final r)).
Proof.
  intros r. subst r. rewrite submit_cons.
  destruct (run_stages_unreachable (extractionProgress s)
              ("VERITY-" ++ Js.int_to_string (answer w n DateNow)) (f :: fs)
              (session_id_truthy _) w (S n) (opened (answer w n DateNow) s)
              eq_refl eq_refl) as (a & Ha & Hun).
  exists a. split; [exact Ha | exact Hun].
Qed.
End SessionClaims.

Section Witnesses.
#[local] Existing Instance Scenario.runtime.
Import Scenario.




Lemma C5_result_applied_without_session_check_witness :
  let k := try_catch (res <- await Rejected NetworkError;;
                      respond 0 "VERITY-1" res) on_failure in
  run k (world Rejected 0) 0 (setCurrentAuditId "VERITY-2" initial_state)
  = with_final (setCurrentAuditId "VERITY-2")
      (run k (world Rejected 0) 0 initial_state).
Proof.
  exact (proj1 (C5_result_applied_without_session_check
                  0 "VERITY-1" "VERITY-2" Rejected (world Rejected 0) 0%nat
                  initial_state eq_refl)).
Defined.

(** C5 fails as stated: a second submit while the first session waits
    for the orchestration service; when the answer arrives, the agent
    statuses, the stages, the exposure, the topology and the audit
    result of the first session are written over the second. *)
Lemma C5_stale_result_is_applied :
  let choices :=
    ([Submit [invoice]] ++ repeat (Resume 0%nat) 5
     ++ [Submit [manifest]] ++ repeat (Resume 0%nat) 3)%list in
  let s :=
    fst (fst (schedule (world (answered 200 audited) 3) choices
                (initial_state, [], 0%nat))) in
  currentAuditId s = "VERITY-1767225600020" /\
  auditResult s = audited /\
  auditorState s = SUCCESS /\ shieldState s = SUCCESS /\
  actionState s = ESCALATED /\
  stage_statuses s = [active; pending; complete; complete; complete] /\
  exposure s = VNum (inject_Z 6000000) /\
  map node_status (activeNodes s)
  = ["flagged"; "unverified"; "verified"; "verified"; "unverified"; "verified"].
Proof. vm_compute. repeat split. Qed.

End Witnesses.
